(** * AI Studio Augmented Image: the search pipeline and the widget engine

    A shallow embedding of [App.tsx] (the application state, [processSearch],
    [handleSearch], [handleSuggestionClick], [handleReset], the phrase timer)
    and of [WidgetEngine.tsx] (the four widgets and the dispatch on
    [segment.format]), over the types of [types.ts].

    - A JavaScript string is its sequence of UTF-16 code units.
    - The hooks' state is a record; a handler is the ordered list of the
      effects it performs (state setters, service calls, console output)
      together with the point where the async function is suspended.
    - A promise that settles later is an event of its own, so that events of
      the user may come between a call and its completion.
    - A widget is the JSX value the component returns; [render] gives the
      nodes React makes of it. *)

From Stdlib Require Import List String Ascii NArith QArith Bool Arith Lia.
Import ListNotations.
Set Warnings "-register-all".
Close Scope Q_scope.
Open Scope string_scope.
Open Scope list_scope.

(* ------------------------------------------------------------------ *)
(** ** JavaScript values used by the code *)

Module JS.

(** A string value: UTF-16 code units. *)
Definition jsstring : Type := list N.

(** An ASCII literal of the source as a string value. *)
Definition lit (s : string) : jsstring :=
  map N_of_ascii (list_ascii_of_string s).

(** [a === b] on strings. *)
Fixpoint str_eqb (a b : jsstring) : bool :=
  match a, b with
  | [], [] => true
  | x :: a', y :: b' => N.eqb x y && str_eqb a' b'
  | _, _ => false
  end.

(** ECMAScript WhiteSpace and LineTerminator code points, the characters
    [String.prototype.trim] strips. *)
Definition isWhiteSpace (c : N) : bool :=
  match c with
  | 0x0009 | 0x000A | 0x000B | 0x000C | 0x000D | 0x0020 | 0x00A0
  | 0x1680 | 0x2028 | 0x2029 | 0x202F | 0x205F | 0x3000 | 0xFEFF => true
  | _ => N.leb 0x2000 c && N.leb c 0x200A
  end%N.

Fixpoint trimStart (s : jsstring) : jsstring :=
  match s with
  | [] => []
  | c :: r => if isWhiteSpace c then trimStart r else s
  end.

Definition trimEnd (s : jsstring) : jsstring := rev (trimStart (rev s)).

Definition trim (s : jsstring) : jsstring := trimEnd (trimStart s).

(** The string is empty or holds nothing but white space. *)
Definition blank (s : jsstring) : bool := forallb isWhiteSpace s.

(** ToBoolean of a string: the empty string is falsy. *)
Definition truthy (s : jsstring) : bool :=
  match s with [] => false | _ :: _ => true end.

(** ToBoolean of a value that is a string or [undefined]/[null]. *)
Definition truthy_opt (v : option jsstring) : bool :=
  match v with Some s => truthy s | None => false end.

(** [v || d] where [v] is a string or [undefined] and [d] a string. *)
Definition or_else (v : option jsstring) (d : jsstring) : jsstring :=
  match v with
  | Some s => if truthy s then s else d
  | None => d
  end.

(** The value caught by [catch (err: any)]: an object whose [message]
    property is a string or is missing. *)
Record ErrorValue : Type := mkError { message : option jsstring }.

(** How a promise settles. *)
Inductive settlement (A : Type) : Type :=
| fulfilled (value : A)
| rejected (err : ErrorValue).

Arguments fulfilled {A} value.
Arguments rejected {A} err.

End JS.

Import JS.

(* ------------------------------------------------------------------ *)
(** ** types.ts *)

Module StatItem.
Record t : Type := mk {
  label : jsstring;
  value : jsstring;
  icon : option jsstring
}.
End StatItem.

Module ActionItem.
Record t : Type := mk {
  label : jsstring;
  url : option jsstring
}.
End ActionItem.

(** Percentages of the rendered image; the widgets never read them. *)
Module BoundingBox.
Record t : Type := mk { x : Q; y : Q; width : Q; height : Q }.
End BoundingBox.

(** [format] and [category] are union types of string literals; at run time
    the record comes from the analysis service and holds whatever string was
    returned, which is what the [default] arm of the dispatch is for.
    [icon] and [category] are read through [||], so a missing value is
    modelled for them too. *)
Module Segment.
Record t : Type := mk {
  label : jsstring;
  format : jsstring;
  description : jsstring;
  category : option jsstring;
  icon : option jsstring;
  stats : option (list StatItem.t);
  sourceUrl : option jsstring;
  sourceName : option jsstring;
  actions : option (list ActionItem.t);
  bounds : BoundingBox.t
}.
End Segment.

Record AnalysisResult : Type := mkAnalysisResult {
  segments : list Segment.t
}.

Record GroundingUrl : Type := mkGroundingUrl {
  title : jsstring;
  uri : jsstring
}.

Record GeneratedImage : Type := mkGeneratedImage {
  base64 : jsstring;
  mimeType : jsstring;
  groundingUrls : list GroundingUrl
}.

(* ------------------------------------------------------------------ *)
(** ** App.tsx: state *)

Inductive AppStatus : Type := idle | generating | analyzing | complete.

Definition AppStatus_eqb (a b : AppStatus) : bool :=
  match a, b with
  | idle, idle | generating, generating
  | analyzing, analyzing | complete, complete => true
  | _, _ => false
  end.

Definition SUGGESTIONS : list jsstring :=
  [ lit "Ecosystem of a Cloud City";
    lit "Hidden Geometry of a Fairy Ring";
    lit "Anatomy of a Dragon" ].

Definition ANALYSIS_PHRASES : list jsstring :=
  [ lit "Scanning visual topography...";
    lit "Identifying key data nodes...";
    lit "Synthesizing contextual widgets...";
    lit "Cross-referencing knowledge bases...";
    lit "Generating immersive annotations..." ].

(** [ANALYSIS_PHRASES[i]]; every index the code uses is in range. *)
Definition ANALYSIS_PHRASES_at (i : nat) : jsstring :=
  nth i ANALYSIS_PHRASES [].

(** The right operand of [err.message || ...] in the catch block. *)
Definition DEFAULT_ERROR : jsstring :=
  lit "Something went wrong. Please check your network and try again.".

(** The value of the [data] state when it is not [null]. *)
Record ResultData : Type := mkData {
  image : GeneratedImage;
  analysis : option AnalysisResult
}.

(** The five [useState] cells of [App]. *)
Record AppState : Type := mkApp {
  query : jsstring;
  status : AppStatus;
  data : option ResultData;
  error : option jsstring;
  analysisPhrase : jsstring
}.

Definition initialState : AppState :=
  {| query := []; status := idle; data := None; error := None;
     analysisPhrase := ANALYSIS_PHRASES_at 0 |}.

(** What a handler does, in program order. *)
Inductive effect : Type :=
| setQuery (q : jsstring)
| setStatus (s : AppStatus)
| setData (d : option ResultData)
| setError (e : option jsstring)
| setAnalysisPhrase (p : jsstring)
| call_generateInfographic (searchQuery : jsstring)
| call_analyzeImageRegions (searchQuery : jsstring) (imageBase64 : jsstring)
| console_log
| console_error (err : ErrorValue)
| preventDefault.

Definition apply_effect (s : AppState) (e : effect) : AppState :=
  match e with
  | setQuery q =>
      {| query := q; status := status s; data := data s; error := error s;
         analysisPhrase := analysisPhrase s |}
  | setStatus st =>
      {| query := query s; status := st; data := data s; error := error s;
         analysisPhrase := analysisPhrase s |}
  | setData d =>
      {| query := query s; status := status s; data := d; error := error s;
         analysisPhrase := analysisPhrase s |}
  | setError e =>
      {| query := query s; status := status s; data := data s; error := e;
         analysisPhrase := analysisPhrase s |}
  | setAnalysisPhrase p =>
      {| query := query s; status := status s; data := data s;
         error := error s; analysisPhrase := p |}
  | call_generateInfographic _ | call_analyzeImageRegions _ _
  | console_log | console_error _ | preventDefault => s
  end.

Definition apply_effects (effs : list effect) (s : AppState) : AppState :=
  fold_left apply_effect effs s.

(** Is this effect a call of one of the two services? *)
Definition is_call (e : effect) : bool :=
  match e with
  | call_generateInfographic _ | call_analyzeImageRegions _ _ => true
  | _ => false
  end.

(* ------------------------------------------------------------------ *)
(** ** App.tsx: processSearch *)

(** Where a run of the async function [processSearch] is suspended, with the
    variables its continuation closes over. *)
Inductive suspended : Type :=
| await_generateInfographic (searchQuery : jsstring)
| await_analyzeImageRegions (searchQuery : jsstring) (image : GeneratedImage).

(** The status a suspended run was in when it made its call. *)
Definition status_of_call (k : suspended) : AppStatus :=
  match k with
  | await_generateInfographic _ => generating
  | await_analyzeImageRegions _ _ => analyzing
  end.

(** The effects of one synchronous stretch of a handler, and the await it
    ends in, if any. *)
Definition stretch : Type := (list effect * option suspended)%type.

(** [catch (err: any) { ... }] *)
Definition catch_block (err : ErrorValue) : stretch :=
  ([ console_error err;
     setError (Some (or_else (message err) DEFAULT_ERROR));
     setStatus idle ],
   None).

(** From the call of [processSearch] to its first [await]. *)
Definition processSearch (searchQuery : jsstring) : stretch :=
  if negb (truthy (trim searchQuery)) then ([], None)
  else
    ([ setStatus generating;
       setError None;
       setData None;
       console_log;
       call_generateInfographic searchQuery ],
     Some (await_generateInfographic searchQuery)).

(** From the settlement of [generateInfographic] to the next [await]. *)
Definition processSearch_after_generate
  (searchQuery : jsstring) (r : settlement GeneratedImage) : stretch :=
  match r with
  | fulfilled image =>
      ([ setData (Some {| image := image; analysis := None |});
         setStatus analyzing;
         setAnalysisPhrase (ANALYSIS_PHRASES_at 0);
         console_log;
         call_analyzeImageRegions searchQuery (base64 image) ],
       Some (await_analyzeImageRegions searchQuery image))
  | rejected err => catch_block err
  end.

(** From the settlement of [analyzeImageRegions] to the end. *)
Definition processSearch_after_analyze
  (searchQuery : jsstring) (image : GeneratedImage)
  (r : settlement AnalysisResult) : stretch :=
  match r with
  | fulfilled analysis =>
      ([ console_log;
         setData (Some {| image := image; analysis := Some analysis |});
         setStatus complete ],
       None)
  | rejected err => catch_block err
  end.

Definition handleSearch (s : AppState) : stretch :=
  let r := processSearch (query s) in
  (preventDefault :: fst r, snd r).

Definition handleSuggestionClick (suggestion : jsstring) : stretch :=
  let r := processSearch suggestion in
  (setQuery suggestion :: fst r, snd r).

Definition handleReset : stretch :=
  ([ setData None; setStatus idle; setQuery []; setError None ], None).

(* ------------------------------------------------------------------ *)
(** ** App.tsx: the running application *)

(** The component between two events: its state, the runs of
    [processSearch] whose awaited call has not settled yet, the [index] of
    the phrase interval if one is registered, and everything done so far. *)
Record World : Type := mkWorld {
  app : AppState;
  inflight : list suspended;
  interval : option nat;
  trace : list effect
}.

Definition initialWorld : World :=
  {| app := initialState; inflight := []; interval := None; trace := [] |}.

(** [useEffect(..., [status])]: when [status] changed in a render, the
    cleanup clears the interval, and the effect registers a new one, its
    [index] at 0, if the new status is [analyzing]. *)
Definition useEffect_status
  (before after : AppStatus) (iv : option nat) : option nat :=
  if AppStatus_eqb before after then iv
  else match after with
       | analyzing => Some 0
       | _ => None
       end.

(** The callback of [setInterval]. *)
Definition interval_callback (index : nat) : nat * list effect :=
  let index' := (index + 1) mod List.length ANALYSIS_PHRASES in
  (index', [ setAnalysisPhrase (ANALYSIS_PHRASES_at index') ]).

Inductive event : Type :=
| onChange (value : jsstring)
| onSubmit
| onSuggestionClick (suggestion : jsstring)
| onResetClick
| tick
| settle_generate (n : nat) (r : settlement GeneratedImage)
| settle_analyze (n : nat) (r : settlement AnalysisResult).

Fixpoint remove_nth {A : Type} (n : nat) (l : list A) : list A :=
  match n, l with
  | _, [] => []
  | O, _ :: r => r
  | S m, a :: r => a :: remove_nth m r
  end.

(** Run one synchronous stretch: apply its setters, keep the new
    suspension, re-run the status effect. *)
Definition perform (w : World) (others : list suspended) (r : stretch)
  : World :=
  let app' := apply_effects (fst r) (app w) in
  {| app := app';
     inflight := others ++ match snd r with Some k => [k] | None => [] end;
     interval := useEffect_status (status (app w)) (status app') (interval w);
     trace := trace w ++ fst r |}.

Definition step (w : World) (ev : event) : World :=
  match ev with
  | onChange value => perform w (inflight w) ([ setQuery value ], None)
  | onSubmit => perform w (inflight w) (handleSearch (app w))
  | onSuggestionClick suggestion =>
      perform w (inflight w) (handleSuggestionClick suggestion)
  | onResetClick => perform w (inflight w) handleReset
  | tick =>
      match interval w with
      | Some index =>
          let r := interval_callback index in
          {| app := apply_effects (snd r) (app w);
             inflight := inflight w;
             interval := Some (fst r);
             trace := trace w ++ snd r |}
      | None => w
      end
  | settle_generate n r =>
      match nth_error (inflight w) n with
      | Some (await_generateInfographic searchQuery) =>
          perform w (remove_nth n (inflight w))
            (processSearch_after_generate searchQuery r)
      | _ => w
      end
  | settle_analyze n r =>
      match nth_error (inflight w) n with
      | Some (await_analyzeImageRegions searchQuery image) =>
          perform w (remove_nth n (inflight w))
            (processSearch_after_analyze searchQuery image r)
      | _ => w
      end
  end.

Definition run (w : World) (evs : list event) : World :=
  fold_left step evs w.

(** Which events the page offers: the form and the suggestion pills are
    rendered only when [status === 'idle'], the New Search button only when
    [status !== 'idle']; a call can settle only while it is in flight. *)
Definition offered (w : World) (ev : event) : bool :=
  match ev with
  | onChange _ | onSubmit => AppStatus_eqb (status (app w)) idle
  | onSuggestionClick suggestion =>
      AppStatus_eqb (status (app w)) idle
      && existsb (str_eqb suggestion) SUGGESTIONS
  | onResetClick => negb (AppStatus_eqb (status (app w)) idle)
  | tick => match interval w with Some _ => true | None => false end
  | settle_generate n _ =>
      match nth_error (inflight w) n with
      | Some (await_generateInfographic _) => true
      | _ => false
      end
  | settle_analyze n _ =>
      match nth_error (inflight w) n with
      | Some (await_analyzeImageRegions _ _) => true
      | _ => false
      end
  end.

(** Every event of the list is offered at the moment it happens. *)
Fixpoint feasible (w : World) (evs : list event) : bool :=
  match evs with
  | [] => true
  | ev :: rest => offered w ev && feasible (step w ev) rest
  end.

(** What [<main>] shows, by the three conditional blocks of the JSX. *)
Inductive screen : Type :=
| SearchScreen (shownQuery : jsstring) (shownError : option jsstring)
| LoadingScreen
| CanvasScreen (shownImage : GeneratedImage)
    (shownAnalysis : option AnalysisResult) (isScanning : bool)
| EmptyScreen.

Definition main_screen (s : AppState) : screen :=
  match status s with
  | idle =>
      SearchScreen (query s)
        (if truthy_opt (error s) then error s else None)
  | generating => LoadingScreen
  | analyzing | complete =>
      match data s with
      | Some d =>
          CanvasScreen (image d) (analysis d)
            (AppStatus_eqb (status s) analyzing)
      | None => EmptyScreen
      end
  end.

(* ------------------------------------------------------------------ *)
(** ** WidgetEngine.tsx *)

(** The value of a JSX expression, as far as the widgets build one: an
    element with its [className] and children, the text of a string, the
    array a [map] returns, and the [false] or [undefined] a guard leaves
    behind.  Animation props and keys are left out. *)
Inductive jsx : Type :=
| jsx_text (s : jsstring)
| jsx_elem (tag className : string) (children : list jsx)
| jsx_array (items : list jsx)
| jsx_false
| jsx_undefined.

(** What React puts in the document. *)
Inductive dom : Type :=
| dom_text (s : jsstring)
| dom_elem (tag className : string) (children : list dom).

(** React renders neither [false] nor [undefined] and splices an array
    child into its parent. *)
Fixpoint render (j : jsx) : list dom :=
  match j with
  | jsx_text s => [ dom_text s ]
  | jsx_elem tag cls children =>
      [ dom_elem tag cls (flat_map render children) ]
  | jsx_array items => flat_map render items
  | jsx_false | jsx_undefined => []
  end.

Definition GLASS_PANEL : string :=
  "bg-black/90 backdrop-blur-xl border border-white/10 shadow-[0_0_40px_rgba(0,0,0,0.6)] w-full max-h-[80vh] overflow-y-auto scrollbar-thin scrollbar-thumb-white/20 scrollbar-track-transparent".

(** The default glyphs, as code units: U+2728, U+1F50D, U+1F4CA, U+1F680. *)
Definition SPARKLES : jsstring := [0x2728]%N.
Definition MAGNIFIER : jsstring := [0xD83D; 0xDD0D]%N.
Definition BAR_CHART : jsstring := [0xD83D; 0xDCCA]%N.
Definition ROCKET : jsstring := [0xD83D; 0xDE80]%N.

Definition MiniWidget (segment : Segment.t) : jsx :=
  jsx_elem "motion.div"
    "bg-black/95 backdrop-blur-md border border-cyan-500/30 px-6 py-3 rounded-full flex items-center gap-4 shadow-[0_0_30px_rgba(0,0,0,0.5)] mx-auto w-fit"
    [ jsx_elem "span" "text-2xl shrink-0"
        [ jsx_text (or_else (Segment.icon segment) SPARKLES) ];
      jsx_elem "span" "text-lg font-bold text-white tracking-wide"
        [ jsx_text (Segment.label segment) ] ].

Definition CompactWidget (segment : Segment.t) : jsx :=
  jsx_elem "motion.div" (GLASS_PANEL ++ " p-6 rounded-2xl relative group")%string
    [ jsx_elem "div"
        "absolute top-0 left-0 w-full h-[2px] bg-gradient-to-r from-cyan-500 via-purple-500 to-transparent opacity-70"
        [];
      jsx_elem "div" "flex items-start gap-5 mb-4"
        [ jsx_elem "div"
            "w-12 h-12 rounded-xl bg-white/5 border border-white/10 flex items-center justify-center text-3xl shadow-inner shrink-0"
            [ jsx_text (or_else (Segment.icon segment) MAGNIFIER) ];
          jsx_elem "div" "min-w-0 flex-1 pt-1"
            [ jsx_elem "div"
                "text-xs uppercase tracking-[0.2em] text-cyan-400 font-bold mb-1 truncate"
                [ jsx_text
                    (or_else (Segment.category segment) (lit "Concept")) ];
              jsx_elem "h3"
                "font-bold text-white text-2xl leading-tight break-words"
                [ jsx_text (Segment.label segment) ] ] ];
      jsx_elem "p" "text-base text-gray-300 leading-relaxed font-light"
        [ jsx_text (Segment.description segment) ] ].

(** The body of [segment.stats?.map((stat, idx) => ...)] in [StatsWidget]. *)
Definition StatsWidget_stat (stat : StatItem.t) : jsx :=
  jsx_elem "div"
    "bg-white/5 rounded-xl p-4 border border-white/5 hover:border-cyan-500/30 transition-colors"
    [ jsx_elem "div" "text-cyan-400 font-mono font-bold text-xl truncate"
        [ jsx_text (StatItem.value stat) ];
      jsx_elem "div"
        "text-xs text-gray-500 uppercase tracking-wide mt-1 truncate"
        [ jsx_text (StatItem.label stat) ] ].

Definition StatsWidget (segment : Segment.t) : jsx :=
  jsx_elem "motion.div" (GLASS_PANEL ++ " p-6 rounded-2xl relative")%string
    [ jsx_elem "div"
        "flex justify-between items-center mb-5 pb-5 border-b border-white/5 sticky top-0 bg-black/90 backdrop-blur-xl z-10 -mx-6 px-6 -mt-6 pt-6 rounded-t-2xl"
        [ jsx_elem "h3"
            "font-bold text-white text-xl flex items-center gap-3 truncate pr-2"
            [ jsx_elem "span" "text-2xl"
                [ jsx_text (or_else (Segment.icon segment) BAR_CHART) ];
              jsx_elem "span" "truncate"
                [ jsx_text (Segment.label segment) ] ];
          jsx_elem "div"
            "px-3 py-1 rounded text-[10px] font-bold bg-purple-500/20 text-purple-200 uppercase tracking-wider border border-purple-500/20 shrink-0"
            [ jsx_text (lit "Data") ] ];
      jsx_elem "div" "grid grid-cols-2 gap-4"
        [ (* segment.stats?.map(...) *)
          match Segment.stats segment with
          | Some stats => jsx_array (map StatsWidget_stat stats)
          | None => jsx_undefined
          end;
          (* (!segment.stats || segment.stats.length === 0) && (...) *)
          if match Segment.stats segment with
             | None => true
             | Some stats => Nat.eqb (List.length stats) 0
             end
          then
            jsx_elem "div"
              "col-span-2 text-sm text-gray-500 italic p-4 text-center"
              [ jsx_text (lit "Detailed metrics unavailable.") ]
          else jsx_false ];
      jsx_elem "p"
        "mt-5 text-sm text-gray-400 border-t border-white/5 pt-4 leading-relaxed"
        [ jsx_text (Segment.description segment) ] ].

(** The body of [segment.stats.map((stat, i) => ...)] in [DetailedWidget]. *)
Definition DetailedWidget_stat (stat : StatItem.t) : jsx :=
  jsx_elem "div"
    "flex-shrink-0 bg-white/5 rounded-lg px-4 py-3 border border-white/5 min-w-[100px]"
    [ jsx_elem "div"
        "text-[10px] text-gray-500 uppercase font-bold tracking-wider truncate"
        [ jsx_text (StatItem.label stat) ];
      jsx_elem "div" "text-white font-mono font-medium text-lg truncate"
        [ jsx_text (StatItem.value stat) ] ].

Definition DetailedWidget (segment : Segment.t) : jsx :=
  jsx_elem "motion.div" (GLASS_PANEL ++ " p-0 rounded-2xl flex flex-col")%string
    [ jsx_elem "div"
        "bg-gradient-to-br from-zinc-900 to-black border-b border-white/10 p-6 relative overflow-hidden shrink-0"
        [ jsx_elem "div"
            "absolute top-[-30px] right-[-30px] w-32 h-32 bg-cyan-500/20 rounded-full blur-3xl"
            [];
          jsx_elem "div"
            "absolute bottom-[-30px] left-[-30px] w-32 h-32 bg-purple-500/20 rounded-full blur-3xl"
            [];
          jsx_elem "div" "relative z-10"
            [ jsx_elem "div" "flex justify-between items-start mb-3"
                [ jsx_elem "span"
                    "inline-block px-3 py-1 rounded text-[10px] font-bold bg-white/10 text-cyan-200 border border-cyan-500/20 uppercase tracking-wide"
                    [ jsx_text
                        (or_else (Segment.category segment)
                           (lit "Deep Dive")) ];
                  jsx_elem "span"
                    "text-4xl filter drop-shadow-glow shrink-0 ml-3"
                    [ jsx_text (or_else (Segment.icon segment) ROCKET) ] ];
              jsx_elem "h3"
                "font-bold text-3xl text-white mb-2 leading-tight break-words"
                [ jsx_text (Segment.label segment) ];
              jsx_elem "div"
                "w-16 h-1.5 bg-gradient-to-r from-cyan-500 to-purple-600 rounded-full"
                [] ] ];
      jsx_elem "div" "p-6 bg-black/40"
        [ jsx_elem "p"
            "text-base text-gray-300 leading-relaxed mb-6 font-light"
            [ jsx_text (Segment.description segment) ];
          (* segment.stats && segment.stats.length > 0 && (...) *)
          match Segment.stats segment with
          | None => jsx_undefined
          | Some stats =>
              if Nat.ltb 0 (List.length stats) then
                jsx_elem "div"
                  "flex gap-4 mb-6 overflow-x-auto pb-2 scrollbar-none"
                  [ jsx_array (map DetailedWidget_stat stats) ]
              else jsx_false
          end ] ].

(** [switch (segment.format)]: the cases are tried in order with [===];
    ['compact'] has no body of its own and falls into [default]. *)
Definition WidgetEngine (segment : Segment.t) : jsx :=
  let format := Segment.format segment in
  if str_eqb format (lit "mini") then MiniWidget segment
  else if str_eqb format (lit "stats") then StatsWidget segment
  else if str_eqb format (lit "detailed") then DetailedWidget segment
  else if str_eqb format (lit "compact") then CompactWidget segment
  else CompactWidget segment.

(** The four values of the type [SegmentFormat]. *)
Definition SegmentFormat : list jsstring :=
  [ lit "compact"; lit "stats"; lit "detailed"; lit "mini" ].

(** *** What the page shows, in the words of the widget contract *)

(** The placeholder of the stats widget. *)
Definition unavailable_placeholder : dom :=
  dom_elem "div" "col-span-2 text-sm text-gray-500 italic p-4 text-center"
    [ dom_text (lit "Detailed metrics unavailable.") ].

(** One cell of the stat grid: the value above the label. *)
Definition grid_cell (stat : StatItem.t) : dom :=
  dom_elem "div"
    "bg-white/5 rounded-xl p-4 border border-white/5 hover:border-cyan-500/30 transition-colors"
    [ dom_elem "div" "text-cyan-400 font-mono font-bold text-xl truncate"
        [ dom_text (StatItem.value stat) ];
      dom_elem "div"
        "text-xs text-gray-500 uppercase tracking-wide mt-1 truncate"
        [ dom_text (StatItem.label stat) ] ].

(** One entry of the stat strip: the label above the value. *)
Definition strip_entry (stat : StatItem.t) : dom :=
  dom_elem "div"
    "flex-shrink-0 bg-white/5 rounded-lg px-4 py-3 border border-white/5 min-w-[100px]"
    [ dom_elem "div"
        "text-[10px] text-gray-500 uppercase font-bold tracking-wider truncate"
        [ dom_text (StatItem.label stat) ];
      dom_elem "div" "text-white font-mono font-medium text-lg truncate"
        [ dom_text (StatItem.value stat) ] ].

(** The stat strip of the detailed widget. *)
Definition stat_strip (stats : list StatItem.t) : dom :=
  dom_elem "div" "flex gap-4 mb-6 overflow-x-auto pb-2 scrollbar-none"
    (map strip_entry stats).

(** The paragraph of the detailed widget that holds the description. *)
Definition detailed_description (segment : Segment.t) : dom :=
  dom_elem "p" "text-base text-gray-300 leading-relaxed mb-6 font-light"
    [ dom_text (Segment.description segment) ].

(** The rejection of the call a suspended run waits for, as an event. *)
Definition rejection_of (k : suspended) (n : nat) (err : ErrorValue)
  : event :=
  match k with
  | await_generateInfographic _ => settle_generate n (rejected err)
  | await_analyzeImageRegions _ _ => settle_analyze n (rejected err)
  end.

(** The string the catch block stores: the message when the error has a
    non-empty one, the default otherwise. *)
Definition shown_error (err : ErrorValue) : jsstring :=
  match message err with
  | Some (c :: m) => c :: m
  | Some [] | None => DEFAULT_ERROR
  end.

(* ------------------------------------------------------------------ *)
(** ** Sample values *)

Definition image_A : GeneratedImage :=
  {| base64 := lit "iVBORw0KGgo="; mimeType := lit "image/png";
     groundingUrls := [] |}.

Definition quota_exceeded : ErrorValue :=
  mkError (Some (lit "quota exceeded")).

Definition no_message : ErrorValue := mkError None.

Definition no_segments : AnalysisResult := {| segments := [] |}.

(** The user types a query and submits it. *)
Definition type_and_submit (q : string) : list event :=
  [ onChange (lit q); onSubmit ].

(** A search that ran to completion, its result on screen. *)
Definition world_complete : World :=
  run initialWorld
    (type_and_submit "Anatomy of a Dragon"
     ++ [ settle_generate 0 (fulfilled image_A);
          settle_analyze 0 (fulfilled no_segments) ]).

(** A search whose image has not arrived yet. *)
Definition world_generating : World :=
  run initialWorld (type_and_submit "Y").

(** The user typed two spaces and a tab. *)
Definition world_blank_query : World :=
  run initialWorld [ onChange [32; 32; 9]%N ].

(** The user gave up a search before its image arrived. *)
Definition world_abandoned : World :=
  run initialWorld (type_and_submit "A" ++ [ onResetClick ]).

(** A search whose image arrives and whose analysis then fails with an
    error that has no message. *)
Definition run_analysis_fails : list event :=
  type_and_submit "Y"
  ++ [ settle_generate 0 (fulfilled image_A);
       settle_analyze 0 (rejected no_message) ].

(** A search whose generation fails. *)
Definition run_generation_fails : list event :=
  type_and_submit "X" ++ [ settle_generate 0 (rejected quota_exceeded) ].

(** A search given up before its image arrives; the image arrives after. *)
Definition run_late_image : list event :=
  type_and_submit "A"
  ++ [ onResetClick; settle_generate 0 (fulfilled image_A) ].

Definition sample_bounds : BoundingBox.t :=
  BoundingBox.mk (10 # 1)%Q (20 # 1)%Q (30 # 1)%Q (40 # 1)%Q.

Definition sample_stats : list StatItem.t :=
  [ StatItem.mk (lit "Wingspan") (lit "12 m") None;
    StatItem.mk (lit "Mass") (lit "4 t") None ].

(** A segment as the analysis might return it, with the given format and
    stats. *)
Definition sample_segment (format : string)
  (stats : option (list StatItem.t)) : Segment.t :=
  Segment.mk (lit "Wing") (lit format) (lit "A membrane of skin.")
    (Some (lit "detail")) None stats None None None sample_bounds.

(* ------------------------------------------------------------------ *)
(** ** Notions the further properties are stated with *)

(** [disabled={!query.trim()}] on the two submit buttons. *)
Definition submit_disabled (s : AppState) : bool :=
  negb (truthy (trim (query s))).

(** [status !== 'idle' && <button onClick={handleReset}>]: the New Search
    button of the header. *)
Definition new_search_shown (s : AppState) : bool :=
  negb (AppStatus_eqb (status s) idle).

Definition is_generate_call (e : effect) : bool :=
  match e with call_generateInfographic _ => true | _ => false end.

Definition is_analyze_call (e : effect) : bool :=
  match e with call_analyzeImageRegions _ _ => true | _ => false end.

Definition awaits_generate (k : suspended) : bool :=
  match k with await_generateInfographic _ => true | _ => false end.

Definition awaits_analyze (k : suspended) : bool :=
  match k with await_analyzeImageRegions _ _ => true | _ => false end.

(** How many elements of the list satisfy the test. *)
Definition count {A : Type} (f : A -> bool) (l : list A) : nat :=
  List.length (filter f l).

(** The queries generation has been called with, latest first, after the
    effects [t], given those called before. *)
Fixpoint generated_after (issued : list jsstring) (t : list effect)
  : list jsstring :=
  match t with
  | [] => issued
  | call_generateInfographic q :: r => generated_after (q :: issued) r
  | _ :: r => generated_after issued r
  end.

(** Every call in [t] is made with a query that is not blank, and every
    analysis call with a query generation was called with earlier (in [t]
    or among [issued]). *)
Fixpoint calls_in_order (issued : list jsstring) (t : list effect) : Prop :=
  match t with
  | [] => True
  | call_generateInfographic q :: r =>
      blank q = false /\ calls_in_order (q :: issued) r
  | call_analyzeImageRegions q _ :: r =>
      In q issued /\ calls_in_order issued r
  | _ :: r => calls_in_order issued r
  end.

(** The query a suspended run was started with. *)
Definition searchQuery_of (k : suspended) : jsstring :=
  match k with
  | await_generateInfographic q => q
  | await_analyzeImageRegions q _ => q
  end.

(** The calls made so far are in order, and every run in flight was
    started by a generation call made so far. *)
Definition calls_accounted (w : World) : Prop :=
  calls_in_order [] (trace w) /\
  forall k, In k (inflight w) ->
            In (searchQuery_of k) (generated_after [] (trace w)).

(** Each analysis call and each run still waiting for its image is
    matched by a generation call, and each run waiting for its analysis by
    an analysis call. *)
Definition calls_counted (w : World) : Prop :=
  count is_analyze_call (trace w) + count awaits_generate (inflight w)
  <= count is_generate_call (trace w) /\
  count awaits_analyze (inflight w) <= count is_analyze_call (trace w).

(** The interval exists exactly while the status is analyzing, and its
    index is one of the phrase array. *)
Definition timer_scoped (w : World) : Prop :=
  match interval w with
  | Some index =>
      status (app w) = analyzing /\ index < List.length ANALYSIS_PHRASES
  | None => status (app w) <> analyzing
  end.

(** The data cell fits the status: nothing while generating, an image
    without analysis while analyzing, both when complete. *)
Definition data_fits_status (s : AppState) : Prop :=
  match status s with
  | idle => True
  | generating => data s = None /\ error s = None
  | analyzing =>
      exists image, data s = Some {| image := image; analysis := None |}
  | complete =>
      exists image result,
        data s = Some {| image := image; analysis := Some result |}
  end.

(** The strings a rendered node shows, in document order. *)
Fixpoint texts (d : dom) : list jsstring :=
  match d with
  | dom_text s => [ s ]
  | dom_elem _ _ children => flat_map texts children
  end.

(** All the text of a widget. *)
Definition widget_texts (j : jsx) : list jsstring :=
  flat_map texts (render j).

(** What the widgets read of a stat. *)
Definition stat_shown (stat : StatItem.t) : jsstring * jsstring :=
  (StatItem.label stat, StatItem.value stat).

(** A segment with attribution, actions and stat icons filled in. *)
Definition sample_segment_full (format : string) : Segment.t :=
  Segment.mk (lit "Wing") (lit format) (lit "A membrane of skin.")
    (Some (lit "detail")) None
    (Some [ StatItem.mk (lit "Wingspan") (lit "12 m") (Some (lit "w"));
            StatItem.mk (lit "Mass") (lit "4 t") (Some (lit "m")) ])
    (Some (lit "https://example.org/dragons")) (Some (lit "Bestiary"))
    (Some [ ActionItem.mk (lit "Read more") None ])
    (BoundingBox.mk (1 # 2)%Q (1 # 3)%Q (50 # 1)%Q (25 # 1)%Q).

(** The analysis of a search is under way. *)
Definition world_analyzing : World :=
  run initialWorld
    (type_and_submit "Y" ++ [ settle_generate 0 (fulfilled image_A) ]).

(* ================================================================== *)
(** * Properties *)

(** ** Strings *)

Lemma str_eqb_eq : forall a b, str_eqb a b = true <-> a = b.
Proof.
  induction a as [|x a IH]; destruct b as [|y b]; simpl;
    try (split; [discriminate | congruence]); try tauto.
  rewrite andb_true_iff, N.eqb_eq, IH. split.
  - intros [-> ->]. reflexivity.
  - intros E. injection E. auto.
Qed.

Lemma str_eqb_refl : forall a, str_eqb a a = true.
Proof. intros a. apply str_eqb_eq. reflexivity. Qed.

Lemma str_eqb_neq : forall a b, a <> b -> str_eqb a b = false.
Proof.
  intros a b H. destruct (str_eqb a b) eqn:E; [|reflexivity].
  apply str_eqb_eq in E. contradiction.
Qed.

Lemma trimStart_nil_iff : forall s, trimStart s = [] <-> blank s = true.
Proof.
  induction s as [|c r IH]; simpl.
  - tauto.
  - destruct (isWhiteSpace c); simpl.
    + exact IH.
    + split; discriminate.
Qed.

Lemma blank_rev : forall s, blank (rev s) = blank s.
Proof.
  intros s. unfold blank. induction s as [|c r IH]; simpl.
  - reflexivity.
  - rewrite forallb_app, IH. simpl. rewrite andb_true_r. apply andb_comm.
Qed.

Lemma blank_trimStart : forall s, blank (trimStart s) = blank s.
Proof.
  induction s as [|c r IH]; simpl.
  - reflexivity.
  - destruct (isWhiteSpace c) eqn:W; simpl.
    + exact IH.
    + rewrite W. reflexivity.
Qed.

(** [trim] leaves the empty string exactly on blank strings. *)
Lemma trim_nil_iff : forall s, trim s = [] <-> blank s = true.
Proof.
  intros s. unfold trim, trimEnd. split.
  - intros H.
    assert (R : trimStart (rev (trimStart s)) = []).
    { destruct (trimStart (rev (trimStart s))) as [|c l]; [reflexivity|].
      simpl in H. destruct (rev l); discriminate. }
    apply trimStart_nil_iff in R.
    rewrite blank_rev, blank_trimStart in R. exact R.
  - intros H. apply trimStart_nil_iff in H. rewrite H. reflexivity.
Qed.

Lemma truthy_trim : forall s, truthy (trim s) = negb (blank s).
Proof.
  intros s. destruct (blank s) eqn:B.
  - apply trim_nil_iff in B. rewrite B. reflexivity.
  - destruct (trim s) eqn:T; [|reflexivity].
    apply trim_nil_iff in T. congruence.
Qed.

Lemma or_else_shown : forall err,
  or_else (message err) DEFAULT_ERROR = shown_error err.
Proof. intros [[[|c m]|]]; reflexivity. Qed.

Lemma shown_error_truthy : forall err, truthy (shown_error err) = true.
Proof. intros [[[|c m]|]]; reflexivity. Qed.

(** ** The first stretch of processSearch *)

Lemma processSearch_blank : forall q,
  blank q = true -> processSearch q = ([], None).
Proof.
  intros q B. unfold processSearch. rewrite truthy_trim, B. reflexivity.
Qed.

Lemma processSearch_nonblank : forall q,
  blank q = false ->
  processSearch q =
    ([ setStatus generating; setError None; setData None; console_log;
       call_generateInfographic q ],
     Some (await_generateInfographic q)).
Proof.
  intros q B. unfold processSearch. rewrite truthy_trim, B. reflexivity.
Qed.

(** ** Steps of the running application *)

Lemma nth_error_snoc : forall (A : Type) (l : list A) (a : A),
  nth_error (l ++ [a]) (List.length l) = Some a.
Proof.
  intros A l a. induction l as [|b l IH]; simpl; [reflexivity | exact IH].
Qed.

Lemma step_settle_generate : forall w n q r,
  nth_error (inflight w) n = Some (await_generateInfographic q) ->
  step w (settle_generate n r) =
  perform w (remove_nth n (inflight w)) (processSearch_after_generate q r).
Proof. intros w n q r H. simpl. rewrite H. reflexivity. Qed.

Lemma step_settle_analyze : forall w n q image r,
  nth_error (inflight w) n = Some (await_analyzeImageRegions q image) ->
  step w (settle_analyze n r) =
  perform w (remove_nth n (inflight w))
    (processSearch_after_analyze q image r).
Proof. intros w n q image r H. simpl. rewrite H. reflexivity. Qed.

(** The state the catch block leaves, whichever call failed. *)
Lemma app_after_rejection : forall w n k err,
  nth_error (inflight w) n = Some k ->
  app (step w (rejection_of k n err)) =
  {| query := query (app w); status := idle; data := data (app w);
     error := Some (shown_error err);
     analysisPhrase := analysisPhrase (app w) |}.
Proof.
  intros w n k err H. destruct k as [q | q image]; unfold rejection_of.
  - rewrite (step_settle_generate _ _ _ _ H). simpl.
    rewrite or_else_shown. reflexivity.
  - rewrite (step_settle_analyze _ _ _ _ _ H). simpl.
    rewrite or_else_shown. reflexivity.
Qed.

(** The state a fulfilled generation leaves. *)
Lemma app_after_image : forall w n q image,
  nth_error (inflight w) n = Some (await_generateInfographic q) ->
  app (step w (settle_generate n (fulfilled image))) =
  {| query := query (app w); status := analyzing;
     data := Some {| image := image; analysis := None |};
     error := error (app w);
     analysisPhrase := lit "Scanning visual topography..." |}.
Proof.
  intros w n q image H. rewrite (step_settle_generate _ _ _ _ H).
  reflexivity.
Qed.

(** The run goes on to wait for the analysis. *)
Lemma inflight_after_image : forall w n q image,
  nth_error (inflight w) n = Some (await_generateInfographic q) ->
  inflight (step w (settle_generate n (fulfilled image))) =
  remove_nth n (inflight w) ++ [ await_analyzeImageRegions q image ].
Proof.
  intros w n q image H. rewrite (step_settle_generate _ _ _ _ H).
  reflexivity.
Qed.

(** The state a fulfilled analysis leaves. *)
Lemma app_after_analysis : forall w n q image analysis,
  nth_error (inflight w) n = Some (await_analyzeImageRegions q image) ->
  app (step w (settle_analyze n (fulfilled analysis))) =
  {| query := query (app w); status := complete;
     data := Some {| image := image; analysis := Some analysis |};
     error := error (app w);
     analysisPhrase := analysisPhrase (app w) |}.
Proof.
  intros w n q image analysis H.
  rewrite (step_settle_analyze _ _ _ _ _ H). reflexivity.
Qed.

(** The scenario of a search that succeeds: the image is on screen with
    the scan running, then the analysis joins it. *)
Example search_succeeds :
  main_screen (app (run initialWorld
                      (type_and_submit "Anatomy of a Dragon"
                       ++ [ settle_generate 0 (fulfilled image_A) ])))
  = CanvasScreen image_A None true /\
  main_screen (app world_complete)
  = CanvasScreen image_A (Some no_segments) false /\
  inflight world_complete = [].
Proof. split; [|split]; reflexivity. Qed.

(** New Search returns to the initial state. *)
Example reset_from_complete :
  app (step world_complete onResetClick) = initialState.
Proof. reflexivity. Qed.

(** The phrase advances with the interval, wraps around after the fifth,
    and the interval is gone once the analysis has settled. *)
Example phrases_cycle :
  let w := run initialWorld
             (type_and_submit "Y"
              ++ [ settle_generate 0 (fulfilled image_A) ]) in
  analysisPhrase (app (run w [ tick ]))
  = lit "Identifying key data nodes..." /\
  analysisPhrase (app (run w [ tick; tick; tick; tick; tick ]))
  = lit "Scanning visual topography..." /\
  interval (run w [ tick; settle_analyze 0 (fulfilled no_segments) ]) = None.
Proof. cbv zeta. split; [|split]; reflexivity. Qed.

(** ** Submitting a query *)

(** C9. Submitting a query that is empty or all white space from the idle
    state does nothing: [processSearch] returns at its guard, the status
    stays idle, no service is called, no run is left in flight, and the
    state (data, error and query with it) is the one before. *)
Theorem blank_submit_is_noop : forall (w : World) (q : jsstring),
  blank q = true -> status (app w) = idle -> query (app w) = q ->
  let w' := step w onSubmit in
  processSearch q = ([], None) /\
  status (app w') = idle /\
  app w' = app w /\
  inflight w' = inflight w /\
  interval w' = interval w /\
  existsb is_call (fst (handleSearch (app w))) = false /\
  filter is_call (trace w') = filter is_call (trace w).
Proof.
  intros w q B I Q. cbv zeta.
  pose proof (processSearch_blank q B) as P.
  unfold step, handleSearch, perform. rewrite Q, P. simpl.
  rewrite I. simpl. rewrite app_nil_r, filter_app. simpl.
  rewrite app_nil_r. repeat split; auto.
Qed.

Lemma blank_submit_is_noop_witness :
  app (step world_blank_query onSubmit) = app world_blank_query /\
  inflight (step world_blank_query onSubmit) = [].
Proof.
  pose proof (blank_submit_is_noop world_blank_query [32; 32; 9]%N
                eq_refl eq_refl eq_refl) as H.
  cbv zeta in H. split; [apply H | apply H].
Defined.

(** C10. The search has no precondition on the status: for a query that
    is not blank and any current state (generating, analyzing and complete
    included) it sets the status to generating and clears error and data,
    and only after these three setters calls the image generation. *)
Theorem search_restarts_from_any_state : forall (w : World) (q : jsstring),
  blank q = false -> query (app w) = q ->
  let w' := step w onSubmit in
  exists pre : list effect,
    fst (processSearch q) = pre ++ [ call_generateInfographic q ] /\
    existsb is_call pre = false /\
    status (apply_effects pre (app w)) = generating /\
    error (apply_effects pre (app w)) = None /\
    data (apply_effects pre (app w)) = None /\
    app w' = apply_effects pre (app w) /\
    query (app w') = q /\
    inflight w' = inflight w ++ [ await_generateInfographic q ] /\
    trace w' = trace w ++ preventDefault :: pre
               ++ [ call_generateInfographic q ].
Proof.
  intros w q B Q. cbv zeta.
  pose proof (processSearch_nonblank q B) as P.
  exists [ setStatus generating; setError None; setData None; console_log ].
  unfold step, handleSearch, perform. rewrite Q, P. simpl.
  repeat split; auto.
Qed.

Lemma search_restarts_from_any_state_witness :
  status (app world_complete) = complete /\
  status (app (step world_complete onSubmit)) = generating /\
  data (app (step world_complete onSubmit)) = None /\
  status (app (step world_generating onSubmit)) = generating.
Proof.
  destruct (search_restarts_from_any_state world_complete
              (lit "Anatomy of a Dragon") eq_refl eq_refl)
    as [pre1 H1].
  destruct (search_restarts_from_any_state world_generating
              (lit "Y") eq_refl eq_refl)
    as [pre2 H2].
  destruct H1 as (_ & _ & S1 & _ & D1 & A1 & _).
  destruct H2 as (_ & _ & S2 & _ & _ & A2 & _).
  split; [reflexivity|]. split; [|split].
  - rewrite A1. exact S1.
  - rewrite A1. exact D1.
  - rewrite A2. exact S2.
Defined.

(** ** The image arrives *)

(** C4. When the image generation is fulfilled, the run stores the image
    with a null analysis, sets the status to analyzing (from generating, in
    a run nothing interfered with) and the status phrase to the first of
    the fixed sequence; the analysis is called after these setters, with
    the query and the image data, and the run then waits for it. *)
Theorem image_then_analysis : forall (w : World) (n : nat) (q : jsstring)
    (image : GeneratedImage),
  nth_error (inflight w) n = Some (await_generateInfographic q) ->
  let w' := step w (settle_generate n (fulfilled image)) in
  exists pre : list effect,
    trace w' = trace w ++ pre
               ++ [ call_analyzeImageRegions q (base64 image) ] /\
    existsb is_call pre = false /\
    app w' = apply_effects pre (app w) /\
    status (app w') = analyzing /\
    data (app w') = Some {| image := image; analysis := None |} /\
    analysisPhrase (app w') = hd [] ANALYSIS_PHRASES /\
    inflight w' =
      remove_nth n (inflight w) ++ [ await_analyzeImageRegions q image ] /\
    main_screen (app w') = CanvasScreen image None true.
Proof.
  intros w n q image H. cbv zeta.
  exists [ setData (Some {| image := image; analysis := None |});
           setStatus analyzing;
           setAnalysisPhrase (ANALYSIS_PHRASES_at 0);
           console_log ].
  rewrite (step_settle_generate _ _ _ _ H). simpl.
  repeat split; reflexivity.
Qed.

Lemma image_then_analysis_witness :
  status (app world_generating) = generating /\
  status (app (step world_generating
                 (settle_generate 0 (fulfilled image_A)))) = analyzing /\
  data (app (step world_generating
               (settle_generate 0 (fulfilled image_A))))
  = Some {| image := image_A; analysis := None |}.
Proof.
  destruct (image_then_analysis world_generating 0 (lit "Y") image_A
              eq_refl) as [pre H].
  destruct H as (_ & _ & _ & S & D & _).
  split; [reflexivity|]. split; [exact S | exact D].
Defined.

(** ** A call fails *)

(** C5. When either call fails, the error kept for display is the
    message of the failure when it has one (a non-empty string) and the
    fixed default string otherwise; the status is idle, and the search
    screen shows that string. *)
Theorem failure_shows_message_or_default : forall (w : World) (n : nat)
    (k : suspended) (err : ErrorValue),
  nth_error (inflight w) n = Some k ->
  let w' := step w (rejection_of k n err) in
  status (app w') = idle /\
  error (app w') = Some (shown_error err) /\
  (forall c m, message err = Some (c :: m) ->
     error (app w') = Some (c :: m)) /\
  (message err = None \/ message err = Some [] ->
     error (app w') =
     Some (lit "Something went wrong. Please check your network and try again.")) /\
  main_screen (app w') =
    SearchScreen (query (app w)) (Some (shown_error err)).
Proof.
  intros w n k err H. cbv zeta. rewrite (app_after_rejection _ _ _ _ H).
  unfold main_screen. simpl. rewrite shown_error_truthy.
  repeat split; auto.
  - intros c m E. unfold shown_error. rewrite E. reflexivity.
  - intros [E | E]; unfold shown_error; rewrite E; reflexivity.
Qed.

Lemma failure_shows_message_or_default_witness :
  error (app (step world_generating
                (settle_generate 0 (rejected quota_exceeded))))
  = Some (lit "quota exceeded") /\
  error (app (step world_generating
                (settle_generate 0 (rejected no_message))))
  = Some DEFAULT_ERROR.
Proof.
  split.
  - destruct (failure_shows_message_or_default world_generating 0
                (await_generateInfographic (lit "Y")) quota_exceeded eq_refl)
      as (_ & E & _).
    exact E.
  - destruct (failure_shows_message_or_default world_generating 0
                (await_generateInfographic (lit "Y")) no_message eq_refl)
      as (_ & E & _).
    exact E.
Defined.

(** C1, as the specification states it, fails: after a fulfilled
    generation and a failed analysis the data cell still holds the image. *)
Lemma analysis_failure_keeps_image_counterexample :
  feasible initialWorld run_analysis_fails = true /\
  status (app (run initialWorld run_analysis_fails)) = idle /\
  error (app (run initialWorld run_analysis_fails)) = Some DEFAULT_ERROR /\
  data (app (run initialWorld run_analysis_fails))
  = Some {| image := image_A; analysis := None |} /\
  data (app (run initialWorld run_analysis_fails)) <> None.
Proof. repeat split; try reflexivity. discriminate. Qed.

(** C1, amended. Whenever the analysis fails, the catch block sets the
    status to idle and the error to the message of the failure or the
    default string, and leaves the data as it was just before the failure:
    it does not clear it.  In particular, when the analysis fails as the
    event right after its own generation was fulfilled, the state is
    status idle, that error, and data still the generated image with a
    null analysis.  The image is not shown, the page being back on the
    search screen. *)
Theorem analysis_failure_state : forall (w : World) (n : nat) (q : jsstring)
    (image : GeneratedImage) (err : ErrorValue),
  (nth_error (inflight w) n = Some (await_analyzeImageRegions q image) ->
   let w' := step w (settle_analyze n (rejected err)) in
   status (app w') = idle /\
   error (app w') = Some (shown_error err) /\
   data (app w') = data (app w) /\
   main_screen (app w') =
     SearchScreen (query (app w)) (Some (shown_error err))) /\
  (nth_error (inflight w) n = Some (await_generateInfographic q) ->
   let w1 := step w (settle_generate n (fulfilled image)) in
   let w2 := step w1 (settle_analyze (List.length (inflight w1) - 1)
                        (rejected err)) in
   status (app w2) = idle /\
   data (app w2) = Some {| image := image; analysis := None |} /\
   error (app w2) = Some (shown_error err) /\
   main_screen (app w2) =
     SearchScreen (query (app w)) (Some (shown_error err))).
Proof.
  intros w n q image err. split.
  - intros H. cbv zeta.
    pose proof (app_after_rejection w n _ err H) as R.
    unfold rejection_of in R. rewrite R.
    unfold main_screen. simpl. rewrite shown_error_truthy.
    repeat split; reflexivity.
  - intros H. cbv zeta.
    pose proof (inflight_after_image w n q image H) as I.
    pose proof (app_after_image w n q image H) as A.
    set (w1 := step w (settle_generate n (fulfilled image))) in *.
    assert (K : nth_error (inflight w1) (List.length (inflight w1) - 1)
                = Some (await_analyzeImageRegions q image)).
    { rewrite I, length_app. simpl. rewrite Nat.add_sub.
      apply nth_error_snoc. }
    pose proof (app_after_rejection w1 _ _ err K) as R.
    unfold rejection_of in R. rewrite R, A.
    unfold main_screen. simpl. rewrite shown_error_truthy.
    repeat split; reflexivity.
Qed.

Lemma analysis_failure_state_witness :
  data (app (step (step world_generating
                     (settle_generate 0 (fulfilled image_A)))
               (settle_analyze 0 (rejected quota_exceeded))))
  = Some {| image := image_A; analysis := None |} /\
  data (app (step (step world_analyzing onResetClick)
               (settle_analyze 0 (rejected quota_exceeded))))
  = data (app (step world_analyzing onResetClick)) /\
  data (app (step world_analyzing onResetClick)) = None.
Proof.
  destruct (analysis_failure_state world_generating 0 (lit "Y") image_A
              quota_exceeded) as [_ A].
  destruct (A eq_refl) as (_ & D & _).
  destruct (analysis_failure_state (step world_analyzing onResetClick) 0
              (lit "Y") image_A quota_exceeded) as [G _].
  destruct (G eq_refl) as (_ & _ & K & _).
  split; [exact D | split; [exact K | reflexivity]].
Defined.

(** C3, as the specification states it, fails: after a failed generation
    the query cell still holds what the user typed. *)
Lemma failure_keeps_query_counterexample :
  feasible initialWorld run_generation_fails = true /\
  status (app (run initialWorld run_generation_fails)) = idle /\
  error (app (run initialWorld run_generation_fails))
  = Some (lit "quota exceeded") /\
  query (app (run initialWorld run_generation_fails)) = lit "X" /\
  query (app (run initialWorld run_generation_fails)) <> [] /\
  main_screen (app (run initialWorld run_generation_fails))
  = SearchScreen (lit "X") (Some (lit "quota exceeded")).
Proof. repeat split; try reflexivity. discriminate. Qed.

(** C3, amended. When either call fails, the query is preserved: the
    query cell holds after the failure what it held before, and the search
    screen the machine returns to shows it in the input. *)
Theorem failure_keeps_query : forall (w : World) (n : nat) (k : suspended)
    (err : ErrorValue),
  nth_error (inflight w) n = Some k ->
  let w' := step w (rejection_of k n err) in
  query (app w') = query (app w) /\
  status (app w') = idle /\
  exists shown : option jsstring,
    main_screen (app w') = SearchScreen (query (app w)) shown.
Proof.
  intros w n k err H. cbv zeta. rewrite (app_after_rejection _ _ _ _ H).
  unfold main_screen. simpl. repeat split. eexists. reflexivity.
Qed.

Lemma failure_keeps_query_witness :
  query (app (step world_generating
                (settle_generate 0 (rejected quota_exceeded))))
  = lit "Y".
Proof.
  destruct (failure_keeps_query world_generating 0
              (await_generateInfographic (lit "Y")) quota_exceeded eq_refl)
    as (Q & _).
  exact Q.
Defined.

(** ** A call settles late *)

(** C2, as the specification states it, fails: the user starts a search
    and gives it up; the machine is idle with no data when the image of the
    abandoned search arrives, and the arrival sets the status to analyzing
    and stores the image. *)
Lemma late_result_is_applied_counterexample :
  feasible initialWorld run_late_image = true /\
  nth_error (inflight world_abandoned) 0
  = Some (await_generateInfographic (lit "A")) /\
  status (app world_abandoned) = idle /\
  data (app world_abandoned) = None /\
  status (app world_abandoned)
  <> status_of_call (await_generateInfographic (lit "A")) /\
  status (app (step world_abandoned
                 (settle_generate 0 (fulfilled image_A)))) = analyzing /\
  data (app (step world_abandoned
               (settle_generate 0 (fulfilled image_A))))
  = Some {| image := image_A; analysis := None |} /\
  run initialWorld run_late_image
  = step world_abandoned (settle_generate 0 (fulfilled image_A)).
Proof. repeat split; try reflexivity. discriminate. Qed.

(** C2, amended. A result that arrives after the machine has left the
    state of its call is not ignored; the continuation runs as it would
    have in time.  A late image sets the status to analyzing, stores the
    image with a null analysis and starts the analysis; a late analysis
    sets the status to complete and stores image and analysis; a late
    failure sets the status to idle and the error, and leaves the data. *)
Theorem late_result_is_applied : forall (w : World) (n : nat)
    (k : suspended),
  nth_error (inflight w) n = Some k ->
  status (app w) <> status_of_call k ->
  (forall err : ErrorValue,
     let w' := step w (rejection_of k n err) in
     status (app w') = idle /\
     error (app w') = Some (shown_error err) /\
     data (app w') = data (app w)) /\
  match k with
  | await_generateInfographic q =>
      forall image : GeneratedImage,
        let w' := step w (settle_generate n (fulfilled image)) in
        status (app w') = analyzing /\
        data (app w') = Some {| image := image; analysis := None |} /\
        trace w' = trace w
                   ++ fst (processSearch_after_generate q (fulfilled image)) /\
        In (call_analyzeImageRegions q (base64 image)) (trace w') /\
        In (await_analyzeImageRegions q image) (inflight w')
  | await_analyzeImageRegions q image =>
      forall analysis : AnalysisResult,
        let w' := step w (settle_analyze n (fulfilled analysis)) in
        status (app w') = complete /\
        data (app w') = Some {| image := image; analysis := Some analysis |}
  end.
Proof.
  intros w n k H _. split.
  - intros err. cbv zeta. rewrite (app_after_rejection _ _ _ _ H).
    repeat split.
  - destruct k as [q | q image].
    + intros image. cbv zeta.
      rewrite (app_after_image _ _ _ _ H), (inflight_after_image _ _ _ _ H).
      rewrite (step_settle_generate _ _ _ _ H).
      repeat split.
      * simpl. apply in_or_app. right. simpl. tauto.
      * apply in_or_app. right. simpl. tauto.
    + intros analysis. cbv zeta.
      rewrite (app_after_analysis _ _ _ _ _ H). repeat split.
Qed.

Lemma late_result_is_applied_witness :
  status (app world_abandoned) = idle /\
  status (app (step world_abandoned
                 (settle_generate 0 (fulfilled image_A)))) = analyzing.
Proof.
  split; [reflexivity|].
  assert (N : status (app world_abandoned)
              <> status_of_call (await_generateInfographic (lit "A")))
    by (simpl; discriminate).
  destruct (late_result_is_applied world_abandoned 0
              (await_generateInfographic (lit "A")) eq_refl N)
    as (_ & L).
  destruct (L image_A) as (S & _). exact S.
Defined.

(** ** The widget engine *)

Lemma WidgetEngine_stats : forall seg,
  Segment.format seg = lit "stats" -> WidgetEngine seg = StatsWidget seg.
Proof. intros seg F. unfold WidgetEngine. rewrite F. reflexivity. Qed.

Lemma WidgetEngine_detailed : forall seg,
  Segment.format seg = lit "detailed" ->
  WidgetEngine seg = DetailedWidget seg.
Proof. intros seg F. unfold WidgetEngine. rewrite F. reflexivity. Qed.

Lemma render_grid_cells : forall stats,
  flat_map render (map StatsWidget_stat stats) = map grid_cell stats.
Proof.
  induction stats as [|st l IH]; simpl.
  - reflexivity.
  - rewrite IH. reflexivity.
Qed.

Lemma render_strip_entries : forall stats,
  flat_map render (map DetailedWidget_stat stats) = map strip_entry stats.
Proof.
  induction stats as [|st l IH]; simpl.
  - reflexivity.
  - rewrite IH. reflexivity.
Qed.

(** Every widget is one element. *)
Lemma render_widget_single : forall seg,
  exists d : dom, render (WidgetEngine seg) = [ d ].
Proof.
  intros seg. unfold WidgetEngine. cbv zeta.
  repeat match goal with
         | |- context [ if ?b then _ else _ ] => destruct b
         end;
    eexists; reflexivity.
Qed.

(** C6. The dispatch is total over the format: each of mini, compact,
    stats and detailed gets its own widget, every other value gets the
    compact widget, and in each case the result renders to one element. *)
Theorem WidgetEngine_dispatch : forall seg : Segment.t,
  (Segment.format seg = lit "mini" -> WidgetEngine seg = MiniWidget seg) /\
  (Segment.format seg = lit "compact" ->
     WidgetEngine seg = CompactWidget seg) /\
  (Segment.format seg = lit "stats" -> WidgetEngine seg = StatsWidget seg) /\
  (Segment.format seg = lit "detailed" ->
     WidgetEngine seg = DetailedWidget seg) /\
  (~ In (Segment.format seg)
        [ lit "mini"; lit "compact"; lit "stats"; lit "detailed" ] ->
     WidgetEngine seg = CompactWidget seg) /\
  (exists d : dom, render (WidgetEngine seg) = [ d ]).
Proof.
  intros seg. repeat split.
  - intros F. unfold WidgetEngine. rewrite F. reflexivity.
  - intros F. unfold WidgetEngine. rewrite F. reflexivity.
  - apply WidgetEngine_stats.
  - apply WidgetEngine_detailed.
  - intros NI. unfold WidgetEngine. cbv zeta.
    destruct (str_eqb (Segment.format seg) (lit "mini")) eqn:E1.
    { apply str_eqb_eq in E1. exfalso. apply NI. rewrite E1.
      simpl. tauto. }
    destruct (str_eqb (Segment.format seg) (lit "stats")) eqn:E2.
    { apply str_eqb_eq in E2. exfalso. apply NI. rewrite E2.
      simpl. tauto. }
    destruct (str_eqb (Segment.format seg) (lit "detailed")) eqn:E3.
    { apply str_eqb_eq in E3. exfalso. apply NI. rewrite E3.
      simpl. tauto. }
    destruct (str_eqb (Segment.format seg) (lit "compact")); reflexivity.
  - apply render_widget_single.
Qed.

Lemma WidgetEngine_dispatch_witness :
  WidgetEngine (sample_segment "poster" None)
  = CompactWidget (sample_segment "poster" None) /\
  WidgetEngine (sample_segment "" (Some sample_stats))
  = CompactWidget (sample_segment "" (Some sample_stats)) /\
  WidgetEngine (sample_segment "mini" None)
  = MiniWidget (sample_segment "mini" None).
Proof.
  split; [|split].
  - destruct (WidgetEngine_dispatch (sample_segment "poster" None))
      as (_ & _ & _ & _ & U & _).
    apply U. simpl. intros [E | [E | [E | [E | []]]]]; discriminate E.
  - destruct (WidgetEngine_dispatch
                (sample_segment "" (Some sample_stats)))
      as (_ & _ & _ & _ & U & _).
    apply U. simpl. intros [E | [E | [E | [E | []]]]]; discriminate E.
  - destruct (WidgetEngine_dispatch (sample_segment "mini" None))
      as (M & _).
    apply M. reflexivity.
Defined.

(** C7. For a segment of format stats the widget is a header, the grid
    and the description.  When the stats are absent or empty the grid holds
    the placeholder and nothing else; when they are not, it holds one cell
    per entry, in the order of the array.  The grid is never empty. *)
Theorem StatsWidget_grid : forall seg : Segment.t,
  Segment.format seg = lit "stats" ->
  exists (cls : string) (header footer : dom) (grid : list dom),
    render (WidgetEngine seg) =
      [ dom_elem "motion.div" cls
          [ header; dom_elem "div" "grid grid-cols-2 gap-4" grid; footer ] ]
    /\ grid <> []
    /\ grid = match Segment.stats seg with
              | None | Some [] => [ unavailable_placeholder ]
              | Some (st :: rest) => map grid_cell (st :: rest)
              end.
Proof.
  intros seg F. rewrite (WidgetEngine_stats seg F). unfold StatsWidget.
  destruct (Segment.stats seg) as [[|st rest]|].
  - do 4 eexists. split; [reflexivity|]. split; [discriminate|reflexivity].
  - do 4 eexists. split; [|split].
    + simpl. rewrite app_nil_r, render_grid_cells. reflexivity.
    + discriminate.
    + reflexivity.
  - do 4 eexists. split; [reflexivity|]. split; [discriminate|reflexivity].
Qed.

Lemma StatsWidget_grid_witness :
  exists (cls : string) (header footer : dom),
    render (WidgetEngine (sample_segment "stats" None)) =
      [ dom_elem "motion.div" cls
          [ header;
            dom_elem "div" "grid grid-cols-2 gap-4"
              [ unavailable_placeholder ];
            footer ] ].
Proof.
  destruct (StatsWidget_grid (sample_segment "stats" None) eq_refl)
    as (cls & header & footer & grid & R & _ & G).
  exists cls, header, footer. rewrite R, G. reflexivity.
Defined.

(** C8. For a segment of format detailed the content block holds the
    description and then, exactly when the stats are present and not empty,
    the strip with one entry per stat in the order of the array; when
    the stats are absent or empty nothing stands in its place. *)
Theorem DetailedWidget_strip : forall seg : Segment.t,
  Segment.format seg = lit "detailed" ->
  exists (cls : string) (header : dom),
    render (WidgetEngine seg) =
      [ dom_elem "motion.div" cls
          [ header;
            dom_elem "div" "p-6 bg-black/40"
              (detailed_description seg ::
               match Segment.stats seg with
               | None | Some [] => []
               | Some (st :: rest) => [ stat_strip (st :: rest) ]
               end) ] ].
Proof.
  intros seg F. rewrite (WidgetEngine_detailed seg F). unfold DetailedWidget.
  destruct (Segment.stats seg) as [[|st rest]|].
  - do 2 eexists. reflexivity.
  - do 2 eexists. simpl. rewrite app_nil_r, render_strip_entries.
    reflexivity.
  - do 2 eexists. reflexivity.
Qed.

Lemma DetailedWidget_strip_witness :
  exists (cls : string) (header : dom),
    render (WidgetEngine (sample_segment "detailed" (Some []))) =
      [ dom_elem "motion.div" cls
          [ header;
            dom_elem "div" "p-6 bg-black/40"
              [ detailed_description
                  (sample_segment "detailed" (Some [])) ] ] ].
Proof.
  destruct (DetailedWidget_strip (sample_segment "detailed" (Some []))
              eq_refl) as (cls & header & R).
  exists cls, header. rewrite R. reflexivity.
Defined.

(* ================================================================== *)
(** * Further properties of the application *)

(** ** Runs *)

Lemma run_snoc : forall w evs ev,
  run w (evs ++ [ ev ]) = step (run w evs) ev.
Proof. intros w evs ev. unfold run. rewrite fold_left_app. reflexivity. Qed.

(** What holds at the start and is kept by every event holds after every
    sequence of events. *)
Lemma run_invariant : forall P : World -> Prop,
  P initialWorld ->
  (forall w ev, P w -> P (step w ev)) ->
  forall evs, P (run initialWorld evs).
Proof.
  intros P P0 PS evs. induction evs as [|ev evs IH] using rev_ind.
  - exact P0.
  - rewrite run_snoc. apply PS. exact IH.
Qed.

(** Case analysis of one event on a world taken apart. *)
Ltac step_cases ev :=
  destruct ev as [value | | suggestion | | | n r | n r];
  unfold step, perform, handleSearch, handleSuggestionClick, handleReset,
    processSearch, processSearch_after_generate,
    processSearch_after_analyze, catch_block;
  cbn [app inflight interval trace query status data error analysisPhrase];
  [ | match goal with
      | |- context [ truthy (trim ?q) ] =>
          destruct (truthy (trim q)) eqn:?
      end
    | match goal with
      | |- context [ truthy (trim ?q) ] =>
          destruct (truthy (trim q)) eqn:?
      end
    |
    | match goal with
      | |- context [ match ?iv with Some _ => _ | None => _ end ] =>
          is_var iv; destruct iv
      end
    | match goal with
      | |- context [ nth_error ?l ?n ] =>
          destruct (nth_error l n) as [[? | ? ?] | ] eqn:?
      end; [ destruct r | | ]
    | match goal with
      | |- context [ nth_error ?l ?n ] =>
          destruct (nth_error l n) as [[? | ? ?] | ] eqn:?
      end; [ | destruct r | ] ];
  cbn -[Nat.modulo ANALYSIS_PHRASES_at].

Lemma timer_scoped_step : forall w ev,
  timer_scoped w -> timer_scoped (step w ev).
Proof.
  intros [[q st d e p] fl iv tr] ev. unfold timer_scoped. cbn.
  intros T. step_cases ev; unfold useEffect_status;
    destruct st; try destruct iv; cbn -[Nat.modulo] in *;
    try (destruct T as [T1 T2]); try discriminate; try tauto;
    try (split; [reflexivity | lia]).
  all: try (split; [assumption | apply Nat.mod_upper_bound; discriminate]).
Qed.

Lemma timer_scoped_run : forall evs, timer_scoped (run initialWorld evs).
Proof.
  apply run_invariant.
  - unfold timer_scoped. simpl. discriminate.
  - apply timer_scoped_step.
Qed.

(** ** The phrase timer *)

(** X1. After any sequence of events the interval of the status phrase is
    registered exactly while the status is analyzing, and its index is
    within the phrase array. *)
Theorem interval_scoped_to_analyzing : forall evs : list event,
  let w := run initialWorld evs in
  (status (app w) = analyzing ->
     exists index, interval w = Some index
                   /\ index < List.length ANALYSIS_PHRASES) /\
  (status (app w) <> analyzing -> interval w = None).
Proof.
  intros evs. cbv zeta. pose proof (timer_scoped_run evs) as T.
  unfold timer_scoped in T.
  destruct (interval (run initialWorld evs)) as [index|].
  - destruct T as [S L]. split.
    + intros _. exists index. split; [reflexivity | exact L].
    + intros N. contradiction.
  - split.
    + intros S. contradiction.
    + intros _. reflexivity.
Qed.

(** X2. Once the status is not analyzing, the timer callback changes
    nothing: no phrase change is seen after the analysis has ended. *)
Theorem tick_outside_analyzing_is_noop : forall evs : list event,
  status (app (run initialWorld evs)) <> analyzing ->
  step (run initialWorld evs) tick = run initialWorld evs.
Proof.
  intros evs N. pose proof (timer_scoped_run evs) as T.
  unfold timer_scoped in T. simpl.
  destruct (interval (run initialWorld evs)) as [index|].
  - destruct T as [S _]. contradiction.
  - reflexivity.
Qed.

Lemma tick_outside_analyzing_is_noop_witness :
  step (run initialWorld run_analysis_fails) tick
  = run initialWorld run_analysis_fails.
Proof.
  apply (tick_outside_analyzing_is_noop run_analysis_fails).
  simpl. discriminate.
Defined.

Lemma step_tick : forall w index,
  interval w = Some index ->
  step w tick =
  {| app := apply_effects
              [ setAnalysisPhrase
                  (ANALYSIS_PHRASES_at
                     ((index + 1) mod List.length ANALYSIS_PHRASES)) ]
              (app w);
     inflight := inflight w;
     interval := Some ((index + 1) mod List.length ANALYSIS_PHRASES);
     trace := trace w
              ++ [ setAnalysisPhrase
                     (ANALYSIS_PHRASES_at
                        ((index + 1) mod List.length ANALYSIS_PHRASES)) ] |}.
Proof. intros w index H. simpl. rewrite H. reflexivity. Qed.

(** X3. While the interval runs, [n + 1] callbacks move the index and the
    phrase [n + 1] places round the phrase array and touch nothing else:
    status, data, error, query and the calls in flight stay. *)
Theorem phrases_rotate : forall (n : nat) (w : World) (index : nat),
  interval w = Some index ->
  let len := List.length ANALYSIS_PHRASES in
  let w' := run w (repeat tick (S n)) in
  interval w' = Some ((index + S n) mod len) /\
  analysisPhrase (app w') = ANALYSIS_PHRASES_at ((index + S n) mod len) /\
  status (app w') = status (app w) /\
  data (app w') = data (app w) /\
  error (app w') = error (app w) /\
  query (app w') = query (app w) /\
  inflight w' = inflight w.
Proof.
  cbv zeta. induction n as [|n IH]; intros w index H.
  - change (run w (repeat tick 1)) with (step w tick).
    rewrite (step_tick w index H). cbn -[Nat.modulo ANALYSIS_PHRASES_at].
    repeat split.
  - change (run w (repeat tick (S (S n))))
      with (run (step w tick) (repeat tick (S n))).
    assert (H1 : interval (step w tick)
                 = Some ((index + 1) mod List.length ANALYSIS_PHRASES)).
    { rewrite (step_tick w index H). reflexivity. }
    destruct (IH (step w tick) _ H1) as (I & P & St & D & E & Q & F).
    rewrite Nat.Div0.add_mod_idemp_l in I, P.
    replace (index + 1 + S n) with (index + S (S n)) in I, P by lia.
    rewrite I, P, St, D, E, Q, F. rewrite (step_tick w index H).
    cbn -[Nat.modulo ANALYSIS_PHRASES_at]. repeat split.
Qed.

Lemma phrases_rotate_witness :
  analysisPhrase (app (run world_analyzing (repeat tick 7)))
  = lit "Synthesizing contextual widgets...".
Proof.
  destruct (phrases_rotate 6 world_analyzing 0 eq_refl) as (_ & P & _).
  exact P.
Defined.

(** ** What holds after every sequence of events *)

Lemma ANALYSIS_PHRASES_at_In : forall i,
  i < List.length ANALYSIS_PHRASES ->
  In (ANALYSIS_PHRASES_at i) ANALYSIS_PHRASES.
Proof. intros i L. unfold ANALYSIS_PHRASES_at. apply nth_In. exact L. Qed.

(** X4. Whatever happens, the status phrase is one of the five phrases. *)
Theorem phrase_is_one_of_ANALYSIS_PHRASES : forall evs : list event,
  In (analysisPhrase (app (run initialWorld evs))) ANALYSIS_PHRASES.
Proof.
  apply (run_invariant
           (fun w => In (analysisPhrase (app w)) ANALYSIS_PHRASES)).
  - simpl. tauto.
  - intros [[q st d e p] fl iv tr] ev. cbn. intros I.
    step_cases ev; try exact I.
    + apply ANALYSIS_PHRASES_at_In. apply Nat.mod_upper_bound. discriminate.
    + apply ANALYSIS_PHRASES_at_In. simpl. lia.
Qed.

Lemma data_fits_status_run : forall evs,
  data_fits_status (app (run initialWorld evs)).
Proof.
  apply (run_invariant (fun w => data_fits_status (app w))).
  - exact I.
  - intros [[q st d e p] fl iv tr] ev. unfold data_fits_status. cbn.
    intros F. step_cases ev; try exact F; try exact I; try tauto;
      eauto.
Qed.

(** X5. After any sequence of events the data fits the status and the
    page has something to show: the loader with no data and no error while
    generating, the image under the scan while analyzing, the image with
    its analysis when complete, the search form when idle. *)
Theorem screen_fits_status : forall evs : list event,
  let s := app (run initialWorld evs) in
  match status s with
  | idle => exists shown, main_screen s = SearchScreen (query s) shown
  | generating =>
      data s = None /\ error s = None /\ main_screen s = LoadingScreen
  | analyzing =>
      exists image,
        data s = Some {| image := image; analysis := None |}
        /\ main_screen s = CanvasScreen image None true
  | complete =>
      exists image result,
        data s = Some {| image := image; analysis := Some result |}
        /\ main_screen s = CanvasScreen image (Some result) false
  end.
Proof.
  intros evs. cbv zeta. pose proof (data_fits_status_run evs) as F.
  unfold data_fits_status in F. unfold main_screen.
  destruct (status (app (run initialWorld evs))).
  - eexists. reflexivity.
  - destruct F as [D E]. repeat split; assumption.
  - destruct F as [image D]. exists image. rewrite D. split; reflexivity.
  - destruct F as (image & result & D). exists image, result. rewrite D.
    split; reflexivity.
Qed.

(** X6. The error cell is never an empty string: it is null or a string
    with at least one character, so on the idle screen an error that is set
    is an error that is shown. *)
Theorem error_is_null_or_shown : forall evs : list event,
  let s := app (run initialWorld evs) in
  (error s = None \/ exists c m, error s = Some (c :: m)) /\
  (status s = idle -> main_screen s = SearchScreen (query s) (error s)).
Proof.
  intros evs. cbv zeta.
  assert (E : error (app (run initialWorld evs)) = None
              \/ exists c m, error (app (run initialWorld evs))
                             = Some (c :: m)).
  { apply (run_invariant
             (fun w => error (app w) = None
                       \/ exists c m, error (app w) = Some (c :: m))).
    - left. reflexivity.
    - intros [[q st d e p] fl iv tr] ev. cbn. intros I.
      step_cases ev; try exact I; try (left; reflexivity);
        right; rewrite or_else_shown;
        match goal with
        | |- context [ shown_error ?x ] =>
            destruct x as [[[|c m]|]]; cbn; eauto
        end. }
  split; [exact E|].
  intros S. unfold main_screen. rewrite S.
  destruct E as [E | (c & m & E)]; rewrite E; reflexivity.
Qed.

(** ** New Search *)

(** X7. After any sequence of events, New Search empties query, data and
    error, sets the status to idle and ends the phrase interval, so the
    empty search form is shown.  It makes no call and cancels none: the
    calls in flight stay in flight.  The status phrase is left as it is. *)
Theorem reset_clears_search : forall evs : list event,
  let w := run initialWorld evs in
  let w' := step w onResetClick in
  app w' = {| query := []; status := idle; data := None; error := None;
              analysisPhrase := analysisPhrase (app w) |} /\
  main_screen (app w') = SearchScreen [] None /\
  interval w' = None /\
  inflight w' = inflight w /\
  filter is_call (trace w') = filter is_call (trace w).
Proof.
  intros evs. cbv zeta. pose proof (timer_scoped_run evs) as T.
  unfold timer_scoped in T.
  destruct (run initialWorld evs) as [[q st d e p] fl iv tr].
  cbn in *. rewrite app_nil_r, filter_app. cbn. rewrite app_nil_r.
  repeat split. unfold useEffect_status.
  destruct st; cbn; try reflexivity.
  destruct iv as [index|]; [|reflexivity].
  destruct T as [T _]. discriminate T.
Qed.

(** ** Suggestions and the submit button *)

(** X8. Clicking a suggestion is typing it and submitting: both leave
    the same state, the same calls in flight, the same interval, and have
    made the same service calls. *)
Theorem suggestion_click_is_type_then_submit : forall (w : World)
    (suggestion : jsstring),
  let a := step w (onSuggestionClick suggestion) in
  let b := run w [ onChange suggestion; onSubmit ] in
  app a = app b /\
  inflight a = inflight b /\
  interval a = interval b /\
  filter is_call (trace a) = filter is_call (trace b).
Proof.
  intros [[q st d e p] fl iv tr] suggestion. cbv zeta.
  unfold run. cbn [fold_left].
  unfold step, perform, handleSearch, handleSuggestionClick, processSearch.
  cbn [app inflight interval trace query status data error analysisPhrase
       apply_effects apply_effect fold_left fst snd].
  destruct (truthy (trim suggestion)); cbn;
    rewrite ?app_nil_r, ?filter_app; cbn;
    rewrite ?app_nil_r; unfold useEffect_status;
    destruct st; cbn; repeat split; reflexivity.
Qed.

(** X9. The submit buttons are disabled exactly for the blank queries,
    which are the queries on which submitting does nothing; with the button
    enabled, submitting starts a run with the query. *)
Theorem submit_disabled_iff_noop : forall s : AppState,
  submit_disabled s = blank (query s) /\
  (submit_disabled s = true <-> handleSearch s = ([ preventDefault ], None))
  /\
  (submit_disabled s = false <->
     snd (handleSearch s) = Some (await_generateInfographic (query s))).
Proof.
  intros s. unfold submit_disabled, handleSearch, processSearch.
  rewrite truthy_trim, negb_involutive.
  destruct (blank (query s)); cbn; repeat split; intros; try reflexivity;
    discriminate.
Qed.

(** ** Whole searches *)

Lemma remove_nth_snoc : forall (A : Type) (l : list A) (a : A),
  remove_nth (List.length l) (l ++ [ a ]) = l.
Proof.
  intros A l a. induction l as [|b l IH]; simpl.
  - reflexivity.
  - rewrite IH. reflexivity.
Qed.

(** The world after a submit that passes the guard. *)
Lemma step_submit_nonblank : forall w,
  blank (query (app w)) = false ->
  step w onSubmit =
  {| app := {| query := query (app w); status := generating; data := None;
               error := None; analysisPhrase := analysisPhrase (app w) |};
     inflight := inflight w ++ [ await_generateInfographic (query (app w)) ];
     interval := useEffect_status (status (app w)) generating (interval w);
     trace := trace w
              ++ [ preventDefault; setStatus generating; setError None;
                   setData None; console_log;
                   call_generateInfographic (query (app w)) ] |}.
Proof.
  intros w B. unfold step, handleSearch, perform.
  rewrite (processSearch_nonblank _ B). reflexivity.
Qed.

(** X10. A search nothing interferes with and both of whose calls are
    fulfilled ends complete, holding the image and exactly the analysis
    that was returned, with the scan off; generation was called once with
    the query, and after it analysis once with the query and the image
    data; the run is no longer in flight and the interval is gone. *)
Theorem search_completes : forall (w : World) (q : jsstring)
    (image : GeneratedImage) (result : AnalysisResult),
  blank q = false -> query (app w) = q ->
  let n := List.length (inflight w) in
  let w' := run w [ onSubmit;
                    settle_generate n (fulfilled image);
                    settle_analyze n (fulfilled result) ] in
  app w' = {| query := q; status := complete;
              data := Some {| image := image; analysis := Some result |};
              error := None;
              analysisPhrase := lit "Scanning visual topography..." |} /\
  main_screen (app w') = CanvasScreen image (Some result) false /\
  inflight w' = inflight w /\
  interval w' = None /\
  filter is_call (trace w') =
    filter is_call (trace w)
    ++ [ call_generateInfographic q;
         call_analyzeImageRegions q (base64 image) ].
Proof.
  intros w q image result B Q. cbv zeta. subst q.
  unfold run. cbn [fold_left]. rewrite (step_submit_nonblank w B).
  destruct w as [[q st d e p] fl iv tr]. cbn in B |- *.
  rewrite nth_error_snoc, remove_nth_snoc. cbn.
  rewrite nth_error_snoc, remove_nth_snoc. cbn.
  rewrite app_nil_r. rewrite !filter_app. cbn. rewrite <- !app_assoc.
  repeat split.
Qed.

Lemma search_completes_witness :
  main_screen
    (app (run world_blank_query
            [ onChange (lit "Anatomy of a Dragon"); onSubmit;
              settle_generate 0 (fulfilled image_A);
              settle_analyze 0 (fulfilled no_segments) ]))
  = CanvasScreen image_A (Some no_segments) false.
Proof.
  destruct (search_completes
              (step world_blank_query
                 (onChange (lit "Anatomy of a Dragon")))
              (lit "Anatomy of a Dragon") image_A no_segments
              eq_refl eq_refl) as (_ & M & _).
  exact M.
Defined.

(** X11. A search whose generation fails ends idle with no data and the
    message of the failure (or the default) on the search screen, the query
    still in the input; analysis is never called for it, and nothing of it
    stays in flight. *)
Theorem search_fails_at_generation : forall (w : World) (q : jsstring)
    (err : ErrorValue),
  blank q = false -> query (app w) = q ->
  let n := List.length (inflight w) in
  let w' := run w [ onSubmit; settle_generate n (rejected err) ] in
  app w' = {| query := q; status := idle; data := None;
              error := Some (shown_error err);
              analysisPhrase := analysisPhrase (app w) |} /\
  main_screen (app w') = SearchScreen q (Some (shown_error err)) /\
  inflight w' = inflight w /\
  filter is_call (trace w') =
    filter is_call (trace w) ++ [ call_generateInfographic q ].
Proof.
  intros w q err B Q. cbv zeta. subst q.
  unfold run. cbn [fold_left]. rewrite (step_submit_nonblank w B).
  destruct w as [[q st d e p] fl iv tr]. cbn in B |- *.
  rewrite nth_error_snoc, remove_nth_snoc. cbn.
  rewrite app_nil_r, or_else_shown. rewrite !filter_app. cbn.
  unfold main_screen. cbn. rewrite shown_error_truthy, app_nil_r.
  repeat split.
Qed.

Lemma search_fails_at_generation_witness :
  app (run initialWorld run_generation_fails)
  = {| query := lit "X"; status := idle; data := None;
       error := Some (lit "quota exceeded");
       analysisPhrase := lit "Scanning visual topography..." |}.
Proof.
  destruct (search_fails_at_generation
              (step initialWorld (onChange (lit "X"))) (lit "X")
              quota_exceeded eq_refl eq_refl) as (A & _).
  exact A.
Defined.

(** X12. After a failure the search form is offered again with the query
    still in it, and submitting it again starts over: status generating,
    the error cleared, the data (the image an analysis failure left behind
    included) cleared, and generation called with the same query. *)
Theorem retry_after_failure : forall (w : World) (n : nat) (k : suspended)
    (err : ErrorValue),
  nth_error (inflight w) n = Some k ->
  blank (query (app w)) = false ->
  let w1 := step w (rejection_of k n err) in
  let w2 := step w1 onSubmit in
  offered w1 onSubmit = true /\
  submit_disabled (app w1) = false /\
  app w2 = {| query := query (app w); status := generating; data := None;
              error := None; analysisPhrase := analysisPhrase (app w) |} /\
  inflight w2 =
    remove_nth n (inflight w)
    ++ [ await_generateInfographic (query (app w)) ] /\
  main_screen (app w2) = LoadingScreen.
Proof.
  intros w n k err H B. cbv zeta.
  pose proof (app_after_rejection w n k err H) as A.
  assert (B1 : blank (query (app (step w (rejection_of k n err)))) = false).
  { rewrite A. exact B. }
  rewrite (step_submit_nonblank _ B1).
  unfold offered, submit_disabled. rewrite truthy_trim, B1, A. cbn.
  repeat split.
  destruct k as [q | q image]; unfold rejection_of.
  - rewrite (step_settle_generate _ _ _ _ H). cbn. rewrite app_nil_r.
    reflexivity.
  - rewrite (step_settle_analyze _ _ _ _ _ H). cbn. rewrite app_nil_r.
    reflexivity.
Qed.

Lemma retry_after_failure_witness :
  status (app (step (step world_analyzing
                       (settle_analyze 0 (rejected no_message)))
                 onSubmit)) = generating /\
  data (app (step (step world_analyzing
                     (settle_analyze 0 (rejected no_message)))
               onSubmit)) = None.
Proof.
  destruct (retry_after_failure world_analyzing 0
              (await_analyzeImageRegions (lit "Y") image_A) no_message
              eq_refl eq_refl) as (_ & _ & A & _).
  cbv zeta in A. unfold rejection_of in A. rewrite A. split; reflexivity.
Defined.

(** ** The calls made *)

Lemma generated_after_app : forall t u issued,
  generated_after issued (t ++ u)
  = generated_after (generated_after issued t) u.
Proof.
  induction t as [|e t IH]; intros u issued; simpl.
  - reflexivity.
  - destruct e; apply IH.
Qed.

Lemma generated_after_keeps : forall t issued q,
  In q issued -> In q (generated_after issued t).
Proof.
  induction t as [|e t IH]; intros issued q H; simpl.
  - exact H.
  - destruct e; apply IH; simpl; auto.
Qed.

Lemma calls_in_order_app : forall t u issued,
  calls_in_order issued t ->
  calls_in_order (generated_after issued t) u ->
  calls_in_order issued (t ++ u).
Proof.
  induction t as [|e t IH]; intros u issued Ht Hu; simpl in *.
  - exact Hu.
  - destruct e; try (apply IH; assumption);
      (destruct Ht as [H1 H2]; split; [exact H1 | apply IH; assumption]).
Qed.

Lemma In_remove_nth : forall (A : Type) (n : nat) (l : list A) (a : A),
  In a (remove_nth n l) -> In a l.
Proof.
  intros A n. induction n as [|n IH]; intros [|b l] a H; simpl in *;
    try contradiction.
  - right. exact H.
  - destruct H as [H | H]; [left; exact H | right; apply IH; exact H].
Qed.

Lemma calls_accounted_step : forall w ev,
  calls_accounted w -> calls_accounted (step w ev).
Proof.
  intros [[q st d e p] fl iv tr] ev. unfold calls_accounted. cbn.
  intros [C F].
  step_cases ev; try (split; assumption);
    repeat match goal with
           | H : nth_error _ _ = Some _ |- _ =>
               pose proof (F _ (nth_error_In _ _ H)); clear H
           | H : truthy (trim _) = true |- _ =>
               rewrite truthy_trim, negb_true_iff in H
           end;
    (split;
     [ apply calls_in_order_app; [exact C | cbn; auto]
     | intros k Hk; rewrite generated_after_app; cbn;
       first
         [ apply in_app_or in Hk; destruct Hk as [Hk | Hk];
           [ try apply In_remove_nth in Hk; auto
           | cbn in Hk; try contradiction;
             destruct Hk as [Hk | []]; subst k; cbn; auto ]
         | auto ] ]).
Qed.

Lemma calls_in_order_run : forall evs : list event,
  calls_in_order [] (trace (run initialWorld evs)).
Proof.
  intros evs.
  apply (run_invariant calls_accounted).
  - split; [exact I | intros k []].
  - apply calls_accounted_step.
Qed.

Lemma calls_in_order_split : forall pre e post issued,
  calls_in_order issued (pre ++ e :: post) ->
  calls_in_order issued pre /\
  match e with
  | call_generateInfographic q => blank q = false
  | call_analyzeImageRegions q _ => In q (generated_after issued pre)
  | _ => True
  end.
Proof.
  induction pre as [|a pre IH]; intros e post issued H; simpl in *.
  - destruct e; try (split; exact I); destruct H as [H _];
      split; try exact I; exact H.
  - destruct a; try (apply IH in H; exact H);
      destruct H as [H1 H2]; apply IH in H2; destruct H2 as [H2 H3];
      (split; [split; assumption | exact H3]).
Qed.

Lemma generated_after_from : forall t issued q,
  In q (generated_after issued t) ->
  In q issued \/ In (call_generateInfographic q) t.
Proof.
  induction t as [|e t IH]; intros issued q H; simpl in *.
  - left. exact H.
  - destruct e; try (apply IH in H; tauto).
    apply IH in H. destruct H as [[H | H] | H]; subst; tauto.
Qed.

Lemma calls_in_order_nonblank : forall t issued q,
  calls_in_order issued t ->
  In (call_generateInfographic q) t -> blank q = false.
Proof.
  induction t as [|e t IH]; intros issued q C H; simpl in *.
  - contradiction.
  - destruct H as [H | H].
    + subst e. apply C.
    + destruct e; try (eapply IH; eassumption);
        destruct C as [_ C]; eapply IH; eassumption.
Qed.

(** X13. In every run of the application the services are never called
    with a blank query, and before every call of the analysis there is a
    call of the generation with the same query. *)
Theorem calls_are_in_order : forall (evs : list event)
    (pre post : list effect) (e : effect),
  trace (run initialWorld evs) = pre ++ e :: post ->
  match e with
  | call_generateInfographic q => blank q = false
  | call_analyzeImageRegions q _ =>
      blank q = false /\ In (call_generateInfographic q) pre
  | _ => True
  end.
Proof.
  intros evs pre post e H. pose proof (calls_in_order_run evs) as C.
  rewrite H in C. apply calls_in_order_split in C. destruct C as [P E].
  destruct e; try exact I; try exact E.
  apply generated_after_from in E. destruct E as [[] | E].
  split; [|exact E]. eapply calls_in_order_nonblank; eassumption.
Qed.

Lemma calls_are_in_order_witness :
  In (call_generateInfographic (lit "Anatomy of a Dragon"))
     (firstn 11 (trace world_complete)).
Proof.
  apply (calls_are_in_order
           (type_and_submit "Anatomy of a Dragon"
            ++ [ settle_generate 0 (fulfilled image_A);
                 settle_analyze 0 (fulfilled no_segments) ])
           (firstn 11 (trace world_complete))
           (skipn 12 (trace world_complete))
           (call_analyzeImageRegions (lit "Anatomy of a Dragon")
              (base64 image_A))).
  reflexivity.
Defined.

Lemma count_app : forall (A : Type) (f : A -> bool) (l m : list A),
  count f (l ++ m) = count f l + count f m.
Proof.
  intros A f l m. unfold count. rewrite filter_app, length_app. reflexivity.
Qed.

Lemma count_remove_nth : forall (A : Type) (f : A -> bool) (n : nat)
    (l : list A) (a : A),
  nth_error l n = Some a ->
  count f l = count f (remove_nth n l) + (if f a then 1 else 0).
Proof.
  intros A f n. unfold count.
  induction n as [|n IH]; intros [|b l] a H; simpl in *; try discriminate.
  - injection H as ->. destruct (f a); simpl; lia.
  - pose proof (IH l a H) as E. destruct (f b); simpl; lia.
Qed.

Lemma count_awaits : forall l : list suspended,
  List.length l = count awaits_generate l + count awaits_analyze l.
Proof.
  unfold count. induction l as [|k l IH]; simpl.
  - reflexivity.
  - destruct k; simpl; lia.
Qed.

Lemma calls_counted_step : forall w ev,
  calls_counted w -> calls_counted (step w ev).
Proof.
  intros [[q st d e p] fl iv tr] ev. unfold calls_counted. cbn.
  intros [C F].
  step_cases ev; try (split; assumption);
    repeat match goal with
           | H : nth_error _ _ = Some _ |- _ =>
               pose proof (count_remove_nth _ awaits_generate _ _ _ H);
               pose proof (count_remove_nth _ awaits_analyze _ _ _ H);
               clear H
           end;
    unfold count in *; rewrite ?filter_app, ?length_app;
    cbn -[Nat.modulo ANALYSIS_PHRASES_at] in *; lia.
Qed.

(** X14. In every run of the application the analysis has been called at
    most as often as the generation, and no more runs are in flight than
    generation calls were made. *)
Theorem calls_are_counted : forall evs : list event,
  let w := run initialWorld evs in
  count is_analyze_call (trace w) <= count is_generate_call (trace w) /\
  List.length (inflight w) <= count is_generate_call (trace w).
Proof.
  intros evs. cbv zeta.
  assert (C : calls_counted (run initialWorld evs)).
  { apply (run_invariant calls_counted).
    - unfold calls_counted. cbn. lia.
    - apply calls_counted_step. }
  destruct C as [C F]. rewrite count_awaits. lia.
Qed.

(* ================================================================== *)
(** * Further properties of the widgets *)

Lemma stat_shown_maps : forall l l' : list StatItem.t,
  map stat_shown l = map stat_shown l' ->
  map StatsWidget_stat l = map StatsWidget_stat l' /\
  map DetailedWidget_stat l = map DetailedWidget_stat l' /\
  List.length l = List.length l'.
Proof.
  induction l as [|st l IH]; intros [|st' l'] H; cbn [map List.length] in *;
    try discriminate.
  - repeat split.
  - injection H as Hl Hv Hr. destruct (IH l' Hr) as (E1 & E2 & E3).
    assert (S1 : StatsWidget_stat st = StatsWidget_stat st')
      by (unfold StatsWidget_stat; rewrite Hl, Hv; reflexivity).
    assert (S2 : DetailedWidget_stat st = DetailedWidget_stat st')
      by (unfold DetailedWidget_stat; rewrite Hl, Hv; reflexivity).
    rewrite S1, S2, E1, E2, E3. repeat split.
Qed.

(** X15. No widget shows the source, the actions, the bounds or the icons
    of the stats: two segments that agree on label, format, description,
    category, icon and on the labels and values of their stats get the same
    widget. *)
Theorem widget_ignores_attribution : forall seg seg' : Segment.t,
  Segment.label seg = Segment.label seg' ->
  Segment.format seg = Segment.format seg' ->
  Segment.description seg = Segment.description seg' ->
  Segment.category seg = Segment.category seg' ->
  Segment.icon seg = Segment.icon seg' ->
  option_map (map stat_shown) (Segment.stats seg)
  = option_map (map stat_shown) (Segment.stats seg') ->
  WidgetEngine seg = WidgetEngine seg'.
Proof.
  intros [l f d c i s u nm a b] [l' f' d' c' i' s' u' nm' a' b'].
  simpl. intros -> -> -> -> -> S.
  unfold WidgetEngine, MiniWidget, CompactWidget, StatsWidget,
    DetailedWidget. simpl.
  destruct s as [s|], s' as [s'|]; simpl in S; try discriminate.
  - injection S as S. destruct (stat_shown_maps s s' S) as (E1 & E2 & E3).
    rewrite E1, E2, E3. reflexivity.
  - reflexivity.
Qed.

Lemma widget_ignores_attribution_witness :
  WidgetEngine (sample_segment_full "detailed")
  = WidgetEngine (sample_segment "detailed" (Some sample_stats)) /\
  WidgetEngine (sample_segment_full "stats")
  = WidgetEngine (sample_segment "stats" (Some sample_stats)).
Proof.
  split.
  - apply (widget_ignores_attribution (sample_segment_full "detailed")
             (sample_segment "detailed" (Some sample_stats)));
      reflexivity.
  - apply (widget_ignores_attribution (sample_segment_full "stats")
             (sample_segment "stats" (Some sample_stats)));
      reflexivity.
Defined.

Lemma WidgetEngine_mini : forall seg,
  Segment.format seg = lit "mini" -> WidgetEngine seg = MiniWidget seg.
Proof. intros seg F. unfold WidgetEngine. rewrite F. reflexivity. Qed.

Lemma WidgetEngine_fallback : forall seg,
  ~ In (Segment.format seg) [ lit "mini"; lit "stats"; lit "detailed" ] ->
  WidgetEngine seg = CompactWidget seg.
Proof.
  intros seg NI. unfold WidgetEngine. cbv zeta.
  destruct (str_eqb (Segment.format seg) (lit "mini")) eqn:E1.
  { apply str_eqb_eq in E1. exfalso. apply NI. rewrite E1. simpl. tauto. }
  destruct (str_eqb (Segment.format seg) (lit "stats")) eqn:E2.
  { apply str_eqb_eq in E2. exfalso. apply NI. rewrite E2. simpl. tauto. }
  destruct (str_eqb (Segment.format seg) (lit "detailed")) eqn:E3.
  { apply str_eqb_eq in E3. exfalso. apply NI. rewrite E3. simpl. tauto. }
  destruct (str_eqb (Segment.format seg) (lit "compact")); reflexivity.
Qed.

(** X16. All the text of a mini widget is the icon (the sparkles when the
    segment has none) and the label: no description, category or stat. *)
Theorem mini_shows_icon_and_label : forall seg : Segment.t,
  Segment.format seg = lit "mini" ->
  widget_texts (WidgetEngine seg)
  = [ or_else (Segment.icon seg) SPARKLES; Segment.label seg ].
Proof.
  intros seg F. rewrite (WidgetEngine_mini seg F). reflexivity.
Qed.

Lemma mini_shows_icon_and_label_witness :
  widget_texts (WidgetEngine (sample_segment_full "mini"))
  = [ SPARKLES; lit "Wing" ].
Proof.
  apply (mini_shows_icon_and_label (sample_segment_full "mini")).
  reflexivity.
Defined.

(** X17. For the format compact and for every format the engine does not
    know, all the text of the widget is the icon (the magnifier when the
    segment has none), the category (Concept when it has none), the label
    and the description: stats are not shown even when the segment has
    them. *)
Theorem compact_shows_no_stats : forall seg : Segment.t,
  ~ In (Segment.format seg) [ lit "mini"; lit "stats"; lit "detailed" ] ->
  widget_texts (WidgetEngine seg)
  = [ or_else (Segment.icon seg) MAGNIFIER;
      or_else (Segment.category seg) (lit "Concept");
      Segment.label seg;
      Segment.description seg ].
Proof.
  intros seg NI. rewrite (WidgetEngine_fallback seg NI). reflexivity.
Qed.

Lemma compact_shows_no_stats_witness :
  widget_texts (WidgetEngine (sample_segment_full "compact"))
  = [ MAGNIFIER; lit "detail"; lit "Wing"; lit "A membrane of skin." ].
Proof.
  apply (compact_shows_no_stats (sample_segment_full "compact")).
  simpl. intros [E | [E | [E | []]]]; discriminate E.
Defined.

Lemma texts_grid_cells : forall stats,
  flat_map texts (map grid_cell stats)
  = flat_map (fun st => [ StatItem.value st; StatItem.label st ]) stats.
Proof.
  induction stats as [|st l IH]; simpl.
  - reflexivity.
  - rewrite IH. reflexivity.
Qed.

Lemma texts_strip_entries : forall stats,
  flat_map texts (map strip_entry stats)
  = flat_map (fun st => [ StatItem.label st; StatItem.value st ]) stats.
Proof.
  induction stats as [|st l IH]; simpl.
  - reflexivity.
  - rewrite IH. reflexivity.
Qed.

(** X18. All the text of a stats widget, in order: the icon (the bar
    chart by default), the label, the tag Data, then for each stat its
    value and its label, or the sentence that metrics are unavailable when
    there is no stat, and last the description. *)
Theorem stats_widget_texts : forall seg : Segment.t,
  Segment.format seg = lit "stats" ->
  widget_texts (WidgetEngine seg)
  = [ or_else (Segment.icon seg) BAR_CHART; Segment.label seg; lit "Data" ]
    ++ match Segment.stats seg with
       | None | Some [] => [ lit "Detailed metrics unavailable." ]
       | Some (st :: rest) =>
           flat_map (fun st => [ StatItem.value st; StatItem.label st ])
             (st :: rest)
       end
    ++ [ Segment.description seg ].
Proof.
  intros seg F. rewrite (WidgetEngine_stats seg F).
  unfold widget_texts, StatsWidget.
  destruct (Segment.stats seg) as [[|st rest]|]; try reflexivity.
  cbn [render flat_map List.length Nat.eqb].
  rewrite render_grid_cells. simpl.
  rewrite !app_nil_r, texts_grid_cells. reflexivity.
Qed.

Lemma stats_widget_texts_witness :
  widget_texts (WidgetEngine (sample_segment "stats" (Some sample_stats)))
  = [ BAR_CHART; lit "Wing"; lit "Data";
      lit "12 m"; lit "Wingspan"; lit "4 t"; lit "Mass";
      lit "A membrane of skin." ].
Proof.
  apply (stats_widget_texts (sample_segment "stats" (Some sample_stats))).
  reflexivity.
Defined.

(** X19. All the text of a detailed widget, in order: the category (Deep
    Dive when the segment has none), the icon (the rocket by default), the
    label, the description, then for each stat its label and its value. *)
Theorem detailed_widget_texts : forall seg : Segment.t,
  Segment.format seg = lit "detailed" ->
  widget_texts (WidgetEngine seg)
  = [ or_else (Segment.category seg) (lit "Deep Dive");
      or_else (Segment.icon seg) ROCKET;
      Segment.label seg;
      Segment.description seg ]
    ++ match Segment.stats seg with
       | None => []
       | Some stats =>
           flat_map (fun st => [ StatItem.label st; StatItem.value st ])
             stats
       end.
Proof.
  intros seg F. rewrite (WidgetEngine_detailed seg F).
  unfold widget_texts, DetailedWidget.
  destruct (Segment.stats seg) as [[|st rest]|]; try reflexivity.
  cbn [render flat_map List.length Nat.ltb Nat.leb].
  rewrite render_strip_entries. simpl.
  rewrite !app_nil_r, texts_strip_entries. reflexivity.
Qed.

Lemma detailed_widget_texts_witness :
  widget_texts (WidgetEngine (sample_segment "detailed" (Some sample_stats)))
  = [ lit "detail"; ROCKET; lit "Wing"; lit "A membrane of skin.";
      lit "Wingspan"; lit "12 m"; lit "Mass"; lit "4 t" ].
Proof.
  apply (detailed_widget_texts
           (sample_segment "detailed" (Some sample_stats))).
  reflexivity.
Defined.

